(** * mstrio: attribute validation, form and relationship management,
      and subscription execution

    A shallow embedding of
    - [mstrio/modeling/schema/attribute/attribute.py] (class [Attribute]) and
    - [mstrio/distribution_services/subscription/subscription_manager.py]
      (class [SubscriptionManager]),
    together with the properties the specification states about them.

    Python exceptions are values of [result]; methods that mutate the
    entity or talk to the server run in a small state-and-error monad over
    a [World] that holds the entity and the log of observable events. *)

From stdpp Require Import base tactics option list strings gmap.
From Stdlib Require Import Lia.

Set Default Proof Using "Type".
Local Open Scope string_scope.
Local Open Scope list_scope.

(** ** Exceptions

    [IServerError] is the error of a server response that is not ok; its
    message comes from the server and is not kept. *)

Inductive exn : Type :=
  | AttributeError (msg : string)
  | ValueError (msg : string)
  | KeyError (key : string)
  | IServerError.

Inductive result (A : Type) : Type :=
  | Ok (a : A)
  | Raise (e : exn).
Arguments Ok {A} a.
Arguments Raise {A} e.

Definition is_raise {A} (r : result A) : bool :=
  match r with Ok _ => false | Raise _ => true end.

Definition result_bind {A B} (r : result A) (k : A -> result B) : result B :=
  match r with Ok a => k a | Raise e => Raise e end.

Notation "'let!' x := c 'in' k" := (result_bind c (fun x => k))
  (at level 10, x name, c at level 100, k at level 200).
Notation "'check!' c 'in' k" := (result_bind c (fun _ => k))
  (at level 10, c at level 100, k at level 200).

(** A list comprehension whose element may raise: the first failure ends
    the comprehension. *)
Fixpoint comprehension {A B} (f : A -> result B) (l : list A) : result (list B) :=
  match l with
  | [] => Ok []
  | x :: l' =>
      let! y := f x in
      let! ys := comprehension f l' in
      Ok (y :: ys)
  end.

(** ** Data model

    Only the fields that the code under study reads are kept.  Any Python
    attribute may hold [None], hence the options. *)

(** [FormReference(id=..., name=...)]: both fields default to [None]. *)
Record FormReference : Type := mkFormReference {
  ref_id : option string;
  ref_name : option string;
}.

Record AttributeForm : Type := mkAttributeForm {
  form_id : option string;
  form_name : option string;
}.

(** An entry of a sort list; the code reads [attr_sort.form] only. *)
Record AttributeSort : Type := mkAttributeSort {
  form : FormReference;
  ascending : bool;
}.

Record AttributeDisplays : Type := mkAttributeDisplays {
  report_displays : list FormReference;
  browse_displays : list FormReference;
}.

(** Each sub-list of [AttributeSorts] may be [None], an empty list or a
    list of entries: the code tests both [is None] and truthiness. *)
Record AttributeSorts : Type := mkAttributeSorts {
  report_sorts : option (list AttributeSort);
  browse_sorts : option (list AttributeSort);
}.

Global Instance FormReference_eq_dec : EqDecision FormReference.
Proof. solve_decision. Defined.
Global Instance AttributeForm_eq_dec : EqDecision AttributeForm.
Proof. solve_decision. Defined.
Global Instance AttributeSort_eq_dec : EqDecision AttributeSort.
Proof. solve_decision. Defined.
Global Instance AttributeDisplays_eq_dec : EqDecision AttributeDisplays.
Proof. solve_decision. Defined.
Global Instance AttributeSorts_eq_dec : EqDecision AttributeSorts.
Proof. solve_decision. Defined.

Definition no_id_or_name_msg : string :=
  "Please specify either 'id' or 'name' parameter in the constructor.".

(** Modelled from the spec: the constructor of [FormReference] is not part
    of the sources at hand.  A reference points to a form by its id or by
    its name; the constructor refuses, with [AttributeError], to build a
    reference that has neither. *)
Definition new_FormReference (id name : option string) : result FormReference :=
  match id, name with
  | None, None => Raise (AttributeError no_id_or_name_msg)
  | _, _ => Ok {| ref_id := id; ref_name := name |}
  end.

(** [FormReference(name=form.name)] and [FormReference(id=form.id)]: the
    first raises for a form without name, the second for a form without
    id, such as a form that was created locally. *)
Definition ref_by_name (f : AttributeForm) : result FormReference :=
  new_FormReference None (form_name f).
Definition ref_by_id (f : AttributeForm) : result FormReference :=
  new_FormReference (form_id f) None.

(** The record that holds the id of [f] and no name, and the one that holds
    its name and no id: the values of the two constructor calls above for a
    form that has an id, respectively a name. *)
Definition by_id (f : AttributeForm) : FormReference :=
  {| ref_id := form_id f; ref_name := None |}.
Definition by_name (f : AttributeForm) : FormReference :=
  {| ref_id := None; ref_name := form_name f |}.

(** [[FormReference(id=form.id) for form in forms]] *)
Definition form_refs (forms : list AttributeForm) : result (list FormReference) :=
  comprehension ref_by_id forms.

(** Python's [x or default] on an optional string: [None] and the empty
    string are both falsy. *)
Definition str_or (x : option string) (default : string) : string :=
  match x with
  | Some s => if decide (s = EmptyString) then default else s
  | None => default
  end.

(** Modelled from the spec: [AttributeForm.is_referenced_by] is not part of
    the sources at hand.  The data model says that a reference points to a
    form when either its id or its name matches the form's; an unset field
    of the reference matches nothing. *)
Definition is_referenced_by_spec (f : AttributeForm) (r : FormReference) : bool :=
  match ref_id r with
  | Some i => bool_decide (form_id f = Some i)
  | None => false
  end
  || match ref_name r with
     | Some n => bool_decide (form_name f = Some n)
     | None => false
     end.

(** ** The validators of [Attribute]

    The validators only call [is_referenced_by]; everything proved in this
    section holds for whatever that method computes. *)

Section Validators.

Variable is_referenced_by : AttributeForm -> FormReference -> bool.

(** [any(form.is_referenced_by(ref) for form in forms)] *)
Definition any_referenced (forms : list AttributeForm) (ref : FormReference) : bool :=
  existsb (fun f => is_referenced_by f ref) forms.

Definition key_form_default_msg : string :=
  "Please select a `key_form` from the `forms` provided.".

Definition validate_key_form (key_form : option FormReference)
    (forms : list AttributeForm) (error_msg : option string)
  : result FormReference :=
  match forms with
  | [] => Raise (AttributeError "`forms` can not be empty.")
  | [form0] => ref_by_name form0
  | _ =>
      match key_form with
      | None => Raise (AttributeError (str_or error_msg key_form_default_msg))
      | Some kf =>
          if negb (any_referenced forms kf)
          then Raise (AttributeError (str_or error_msg key_form_default_msg))
          else Ok kf
      end
  end.

(** The inner loop of [check_if_referenced_forms_exist]: the flag starts
    at [False] and is raised by every form that the reference points to. *)
Definition referenced_flag (forms : list AttributeForm) (ref : FormReference) : bool :=
  fold_left (fun flag f => if is_referenced_by f ref then true else flag)
            forms false.

Fixpoint check_if_referenced_forms_exist (error_msg : string)
    (forms : list AttributeForm) (refs : list FormReference) : result unit :=
  match refs with
  | [] => Ok tt
  | ref :: refs' =>
      if referenced_flag forms ref
      then check_if_referenced_forms_exist error_msg forms refs'
      else Raise (AttributeError error_msg)
  end.

Definition displays_error_msg : string :=
  "FormReference present in `displays` is not present in `forms`.".

(** [displays.report_displays == []] followed by the assignment; the
    references are only built for an empty list. *)
Definition populate_if_empty (forms : list AttributeForm)
    (refs : list FormReference) : result (list FormReference) :=
  match refs with
  | [] => form_refs forms
  | _ => Ok refs
  end.

Definition validate_displays (displays : option AttributeDisplays)
    (forms : list AttributeForm) : result AttributeDisplays :=
  match displays with
  | None =>
      let! form_refs := form_refs forms in
      Ok {| report_displays := form_refs; browse_displays := form_refs |}
  | Some displays =>
      let! report := populate_if_empty forms (report_displays displays) in
      let displays :=
        {| report_displays := report;
           browse_displays := browse_displays displays |} in
      let! browse := populate_if_empty forms (browse_displays displays) in
      let displays :=
        {| report_displays := report_displays displays;
           browse_displays := browse |} in
      check! check_if_referenced_forms_exist displays_error_msg forms
               (report_displays displays) in
      check! check_if_referenced_forms_exist displays_error_msg forms
               (browse_displays displays) in
      Ok displays
  end.

Definition sorts_error_msg : string :=
  "FormReference present in `sort` is not present in `forms`.".

(** The result is [Ok None] for Python's [return None]. *)
Definition validate_sorts (sorts : option AttributeSorts)
    (forms : list AttributeForm) : result (option AttributeSorts) :=
  match sorts with
  | None => Ok None
  | Some sorts =>
      match browse_sorts sorts, report_sorts sorts with
      | None, None => Ok None
      | _, _ =>
          check! match report_sorts sorts with
                 | Some l =>
                     check_if_referenced_forms_exist sorts_error_msg forms
                       (map form l)
                 | None => Ok tt
                 end in
          check! match browse_sorts sorts with
                 | Some l =>
                     check_if_referenced_forms_exist sorts_error_msg forms
                       (map form l)
                 | None => Ok tt
                 end in
          Ok (Some sorts)
      end
  end.

End Validators.

(** ** Relationships *)

(** A reference to a schema object.  [sub_type] holds the value of the
    [ObjectSubType] enumeration. *)
Record SchemaObjectReference : Type := mkSchemaObjectReference {
  sub_type : string;
  object_id : string;
  name : string;
}.

Inductive RelationshipType : Type :=
  | ONE_TO_MANY
  | OTHER_RELATIONSHIP_TYPE (value : string).

(** A relationship carries either the attribute [child] or the attribute
    [joint_child], never both: the code asks [hasattr(rel, 'child')]. *)
Inductive RelationshipTarget : Type :=
  | Child (child : SchemaObjectReference)
  | JointChild (joint_child : list SchemaObjectReference).

Record Relationship : Type := mkRelationship {
  relationship_type : RelationshipType;
  relationship_table : option SchemaObjectReference;
  parent : SchemaObjectReference;
  target : RelationshipTarget;
}.

(** Modelled from the spec: [SchemaObjectReference.__eq__] and
    [Relationship.__eq__] are not part of the sources at hand.  The design
    notes ask for value equality on plain data, which is what [decide]
    computes here. *)
Global Instance SchemaObjectReference_eq_dec : EqDecision SchemaObjectReference.
Proof. solve_decision. Defined.
Global Instance RelationshipType_eq_dec : EqDecision RelationshipType.
Proof. solve_decision. Defined.
Global Instance RelationshipTarget_eq_dec : EqDecision RelationshipTarget.
Proof. solve_decision. Defined.
Global Instance Relationship_eq_dec : EqDecision Relationship.
Proof. solve_decision. Defined.

(** Modelled from the spec: the constructor [Relationship(type, table,
    parent, child, joint_child)] is not part of the sources at hand; a
    relationship holds either a single child or a list of joint children. *)
Definition new_Relationship (relationship_type : RelationshipType)
    (table : option SchemaObjectReference) (parent : SchemaObjectReference)
    (child : option SchemaObjectReference)
    (joint_child : option (list SchemaObjectReference)) : Relationship :=
  {| relationship_type := relationship_type;
     relationship_table := table;
     parent := parent;
     target := match child with
               | Some c => Child c
               | None => JointChild (default [] joint_child)
               end |}.

(** [hasattr(rel, 'child') and rel.child == child] *)
Definition has_child (child : SchemaObjectReference) (rel : Relationship) : bool :=
  match target rel with
  | Child c => bool_decide (c = child)
  | JointChild _ => false
  end.

(** [hasattr(rel, 'joint_child') and rel.joint_child == joint_child] *)
Definition has_joint_child (joint_child : list SchemaObjectReference)
    (rel : Relationship) : bool :=
  match target rel with
  | Child _ => false
  | JointChild l => bool_decide (l = joint_child)
  end.

(** [rel.parent.object_id == parent.object_id] *)
Definition has_parent (p : SchemaObjectReference) (rel : Relationship) : bool :=
  bool_decide (object_id (parent rel) = object_id p).

(** ** The attribute entity and its world *)

Record Attribute : Type := mkAttribute {
  id : string;
  attr_name : string;
  attr_sub_type : string;
  attribute_lookup_table : option SchemaObjectReference;
  forms : list AttributeForm;
  key_form : FormReference;
  displays : option AttributeDisplays;
  sorts : option AttributeSorts;
  relationships : list Relationship;
}.

(** The keyword arguments of a call to [_alter_properties]: a field left
    at [None] is not part of the update. *)
Record Properties : Type := mkProperties {
  p_key_form : option FormReference;
  p_forms : option (list AttributeForm);
  p_displays : option AttributeDisplays;
  p_sorts : option AttributeSorts;
  p_relationships : option (list Relationship);
}.

Definition no_properties : Properties :=
  {| p_key_form := None; p_forms := None; p_displays := None;
     p_sorts := None; p_relationships := None |}.

(** What the outside observes of a method call. *)
Inductive Event : Type :=
  | Warning (msg : string)
  | AlterProperties (props : Properties).

Global Instance Properties_eq_dec : EqDecision Properties.
Proof. solve_decision. Defined.
Global Instance Event_eq_dec : EqDecision Event.
Proof. solve_decision. Defined.

Definition is_update (e : Event) : bool :=
  match e with AlterProperties _ => true | Warning _ => false end.
Definition is_warning (e : Event) : bool :=
  match e with Warning _ => true | AlterProperties _ => false end.

(** The entity a method runs on and the events so far, oldest first. *)
Record World : Type := mkWorld {
  self : Attribute;
  events : list Event;
}.

(** Methods: state passing with exceptions; the world survives a raise. *)
Definition M (A : Type) : Type := World -> result A * World.

Definition ret {A} (a : A) : M A := fun w => (Ok a, w).
Definition raise {A} (e : exn) : M A := fun w => (Raise e, w).
Definition bind {A B} (m : M A) (k : A -> M B) : M B :=
  fun w => match m w with
           | (Ok a, w') => k a w'
           | (Raise e, w') => (Raise e, w')
           end.
Definition lift {A} (r : result A) : M A := fun w => (r, w).
Definition get_self : M Attribute := fun w => (Ok (self w), w).
Definition emit (e : Event) : M unit :=
  fun w => (Ok tt, {| self := self w; events := events w ++ [e] |}).

Notation "'bind!' x := c 'in' k" := (bind c (fun x => k))
  (at level 10, x name, c at level 100, k at level 200).
Notation "'exec!' c 'in' k" := (bind c (fun _ => k))
  (at level 10, c at level 100, k at level 200).

(** Modelled from the spec: [helper.exception_handler] is not part of the
    sources at hand.  With a warning class the condition is reported as a
    non-fatal warning and the caller goes on. *)
Definition exception_handler_warning (msg : string) : M unit :=
  emit (Warning msg).

(** Modelled from the spec: [Entity._alter_properties] is not part of the
    sources at hand.  It submits the given fields through the declared
    PATCH route, after which the entity holds them. *)
Definition apply_properties (p : Properties) (a : Attribute) : Attribute :=
  {| id := id a;
     attr_name := attr_name a;
     attr_sub_type := attr_sub_type a;
     attribute_lookup_table := attribute_lookup_table a;
     forms := default (forms a) (p_forms p);
     key_form := default (key_form a) (p_key_form p);
     displays := match p_displays p with Some d => Some d | None => displays a end;
     sorts := match p_sorts p with Some s => Some s | None => sorts a end;
     relationships := default (relationships a) (p_relationships p) |}.

Definition _alter_properties (p : Properties) : M unit :=
  fun w => (Ok tt, {| self := apply_properties p (self w);
                      events := events w ++ [AlterProperties p] |}).

(** Modelled from the spec: [SchemaObjectReference.create_from] is not part
    of the sources at hand; it builds the reference that identifies the
    given object. *)
Definition create_from (a : Attribute) : SchemaObjectReference :=
  {| sub_type := attr_sub_type a; object_id := id a; name := attr_name a |}.

(** *** Relationship management *)

(** Truthiness of an optional list: [None] and [[]] are falsy. *)
Definition truthy {A} (l : option (list A)) : bool :=
  match l with Some (_ :: _) => true | _ => false end.

Definition either_child_msg : string :=
  "Please specify either 'child' or 'joint_child' parameter.".

(** ["[" + ", ".join(child.name for child in joint_child) + "]"] *)
Definition joint_names (joint_child : list SchemaObjectReference) : string :=
  "[" +:+ String.concat ", " (map name joint_child) +:+ "]".

Definition _update_relationships (relationship : Relationship) (add : bool)
  : M unit :=
  bind! self := get_self in
  let relationships := relationships self in
  let relationships :=
    if add then relationships ++ [relationship]
    else filter (fun rel => rel <> relationship) relationships in
  _alter_properties
    {| p_key_form := None; p_forms := None; p_displays := None;
       p_sorts := None; p_relationships := Some relationships |}.

Definition add_child (child : option SchemaObjectReference)
    (joint_child : option (list SchemaObjectReference))
    (relationship_type : RelationshipType)
    (table : option SchemaObjectReference) : M unit :=
  bind! self := get_self in
  let add_it :=
    let parent := create_from self in
    let table := match table with
                 | Some t => Some t
                 | None => attribute_lookup_table self
                 end in
    _update_relationships
      (new_Relationship relationship_type table parent child joint_child) true in
  if (bool_decide (is_Some child) && truthy joint_child)
     || (negb (bool_decide (is_Some child)) && negb (truthy joint_child))
  then raise (ValueError either_child_msg)
  else
    match child with
    | Some c =>
        match List.find (has_child c) (relationships self) with
        | Some _ =>
            exception_handler_warning
              (name c +:+ " already is a child of the attribute '" +:+ id self
               +:+ "' and will be omitted.")
        | None => add_it
        end
    | None =>
        let jc := default [] joint_child in
        match List.find (has_joint_child jc) (relationships self) with
        | Some _ =>
            exception_handler_warning
              (joint_names jc +:+ " already is a joint_child of the attribute '"
               +:+ id self +:+ "' and will be omitted.")
        | None => add_it
        end
    end.

Definition add_parent (parent : SchemaObjectReference)
    (relationship_type : RelationshipType)
    (table : option SchemaObjectReference) : M unit :=
  bind! self := get_self in
  match List.find (has_parent parent) (relationships self) with
  | Some _ =>
      exception_handler_warning
        (name parent +:+ " already is a parent of the attribute '" +:+ id self
         +:+ "' and will be omitted.")
  | None =>
      let child := create_from self in
      let table := match table with
                   | Some t => Some t
                   | None => attribute_lookup_table self
                   end in
      _update_relationships
        (new_Relationship relationship_type table parent (Some child) None) true
  end.

Definition not_a_child_msg (child_name : string) (self : Attribute) : string :=
  child_name +:+ " is not a child/joint_child of the attribute '" +:+ id self
  +:+ "' and will be omitted.".

Definition remove_child (child : option SchemaObjectReference)
    (joint_child : option (list SchemaObjectReference)) : M unit :=
  bind! self := get_self in
  if (bool_decide (is_Some child) && truthy joint_child)
     || (negb (bool_decide (is_Some child)) && negb (truthy joint_child))
  then raise (ValueError either_child_msg)
  else if truthy joint_child then
    let jc := default [] joint_child in
    match List.find (has_joint_child jc) (relationships self) with
    | Some rel => _update_relationships rel false
    | None => exception_handler_warning (not_a_child_msg (joint_names jc) self)
    end
  else
    match child with
    | Some c =>
        match List.find (has_child c) (relationships self) with
        | Some rel => _update_relationships rel false
        | None => exception_handler_warning (not_a_child_msg (name c) self)
        end
    | None => ret tt
    end.

(** [rel.parent.object_id == parent.object_id and parent.object_id != self.id] *)
Definition is_foreign_parent (self : Attribute) (p : SchemaObjectReference)
    (rel : Relationship) : bool :=
  has_parent p rel && negb (bool_decide (object_id p = id self)).

Definition remove_parent (parent : SchemaObjectReference) : M unit :=
  bind! self := get_self in
  match List.find (is_foreign_parent self parent) (relationships self) with
  | Some rel => _update_relationships rel false
  | None =>
      exception_handler_warning
        (name parent +:+ " is not a parent of the attribute '" +:+ id self
         +:+ "' and will be omitted.")
  end.

(** ** Form management *)

(** [form.id == form_id] *)
Definition has_id (i : string) (f : AttributeForm) : bool :=
  bool_decide (form_id f = Some i).

Section Forms.

Variable is_referenced_by : AttributeForm -> FormReference -> bool.

(** [for index in range(len(l)): if p(l[index]): l.pop(index); break] *)
Fixpoint pop_first {A} (p : A -> bool) (l : list A) : list A :=
  match l with
  | [] => []
  | x :: l' => if p x then l' else x :: pop_first p l'
  end.

Definition none_has_no_attribute (field : string) : exn :=
  AttributeError ("'NoneType' object has no attribute '" +:+ field +:+ "'").

(** [deepcopy(None)] is [None], and reading a field of [None] raises. *)
Definition _remove_form_from_displays (form_to_be_removed : AttributeForm)
    (forms : list AttributeForm) (displays : option AttributeDisplays)
  : result AttributeDisplays :=
  match displays with
  | None => Raise (none_has_no_attribute "report_displays")
  | Some displays =>
      let displays :=
        {| report_displays :=
             pop_first (is_referenced_by form_to_be_removed)
                       (report_displays displays);
           browse_displays :=
             pop_first (is_referenced_by form_to_be_removed)
                       (browse_displays displays) |} in
      validate_displays is_referenced_by (Some displays) forms
  end.

(** [if sorts.report_sorts:] skips both [None] and the empty list. *)
Definition pop_sort (form_to_be_removed : AttributeForm)
    (l : option (list AttributeSort)) : option (list AttributeSort) :=
  match l with
  | Some (x :: l') =>
      Some (pop_first (fun s => is_referenced_by form_to_be_removed (form s))
                      (x :: l'))
  | other => other
  end.

Definition _remove_form_from_sorts (form_to_be_removed : AttributeForm)
    (forms : list AttributeForm) (sorts : option AttributeSorts)
  : result (option AttributeSorts) :=
  match sorts with
  | None => Raise (none_has_no_attribute "report_sorts")
  | Some sorts =>
      let sorts :=
        {| report_sorts := pop_sort form_to_be_removed (report_sorts sorts);
           browse_sorts := pop_sort form_to_be_removed (browse_sorts sorts) |} in
      validate_sorts is_referenced_by (Some sorts) forms
  end.

(** The first loop of [remove_form]: the last form with the given id is
    the one to delete, every form with another id is kept. *)
Definition scan_forms (form_id : string) (forms : list AttributeForm)
  : option AttributeForm * list AttributeForm :=
  fold_left
    (fun '(form_to_del, new_forms) f =>
       if has_id form_id f
       then (Some f, new_forms)
       else (form_to_del, new_forms ++ [f]))
    forms (None, []).

Definition delete_key_form_msg : string :=
  "You are trying to delete the current key form. Please chose "
  +:+ "new key form.".

Definition remove_form (form_id : string) (new_key_form : option FormReference)
  : M unit :=
  bind! self := get_self in
  let '(form_to_del, new_forms) := scan_forms form_id (forms self) in
  let new_key_form := default (key_form self) new_key_form in
  match form_to_del with
  | None =>
      raise (ValueError ("Attribute with ID " +:+ id self +:+ " does not "
                         +:+ "contain attribute form with ID " +:+ form_id +:+ "."))
  | Some form_to_del =>
      bind! new_key_form :=
        (if decide (length new_forms = 0)
         then raise (ValueError "You can not delete the last attribute form")
         else if is_referenced_by form_to_del (key_form self)
         then lift (validate_key_form is_referenced_by (Some new_key_form)
                                      new_forms (Some delete_key_form_msg))
         else ret new_key_form) in
      bind! displays :=
        lift (_remove_form_from_displays form_to_del new_forms (displays self)) in
      bind! sorts :=
        lift (_remove_form_from_sorts form_to_del new_forms (sorts self)) in
      _alter_properties
        {| p_key_form := Some new_key_form; p_forms := Some new_forms;
           p_displays := Some displays; p_sorts := sorts;
           p_relationships := None |}
  end.

End Forms.

(** ** Batch update *)

(** [destination_folder] is a [Folder] object or the id of one. *)
Inductive FolderArg : Type :=
  | FolderObject (folder_id : string)
  | FolderId (folder_id : string).

Definition destination_folder_id (f : FolderArg) : string :=
  match f with FolderObject i => i | FolderId i => i end.

(** The record read by [_get_create_body]; [sub_type] already holds the
    value of its enumeration. *)
Record AttributeData : Type := mkAttributeData {
  d_name : string;
  d_sub_type : string;
  d_destination_folder : FolderArg;
  d_forms : list AttributeForm;
  d_key_form : option FormReference;
  d_displays : option AttributeDisplays;
  d_description : option string;
  d_is_embedded : bool;
  d_attribute_lookup_table : option SchemaObjectReference;
  d_sorts : option AttributeSorts;
  d_show_expression_as : string;
  d_hidden : option bool;
}.

(** The request body, before [None] values are pruned. *)
Record Body : Type := mkBody {
  b_name : string;
  b_sub_type : string;
  b_is_embedded : bool;
  b_description : option string;
  b_destination_folder_id : string;
  b_forms : option (list AttributeForm);
  b_attribute_lookup_table : option SchemaObjectReference;
  b_key_form : option FormReference;
  b_displays : option AttributeDisplays;
  b_sorts : option AttributeSorts;
}.

Record UpdateAttributeDto : Type := mkUpdateAttributeDto {
  dto_id : string;
  dto_body : Body;
  dto_show_expression_as : string;
}.

(** What the server answers for one updated attribute. *)
Record Response : Type := mkResponse {
  r_id : string;
  r_name : string;
}.

(** The calls that leave the process. *)
Inductive NetCall : Type :=
  | UpdateAttributes (dtos : list UpdateAttributeDto) (changeset_id : option string)
  | AlterHidden (attribute_id : string) (hidden : bool).

Definition incorrect_enum_msg (obj : string) : string :=
  "Incorrect enum value '" +:+ obj +:+ "'.".

(** Modelled from the spec: [get_enum_val] is not part of the sources at
    hand.  Given a string it returns the string when it is one of the values
    of the enumeration, and raises [ValueError] otherwise; [is_member] says
    which strings are values of the enumeration. *)
Definition get_enum_val (is_member : string -> bool) (obj : string)
  : result string :=
  if is_member obj then Ok obj else Raise (ValueError (incorrect_enum_msg obj)).

Section Batch.

Variable is_referenced_by : AttributeForm -> FormReference -> bool.

(** The values of [ObjectSubType]. *)
Variable is_sub_type : string -> bool.

(** The server: the answers of [attributes.update_attributes]. *)
Variable update_attributes :
  list UpdateAttributeDto -> option string -> list Response.

Definition _get_create_body (name : string) (sub_type : string)
    (destination_folder : FolderArg) (forms : list AttributeForm)
    (key_form : option FormReference) (displays : option AttributeDisplays)
    (description : option string) (is_embedded : bool)
    (attribute_lookup_table : option SchemaObjectReference)
    (sorts : option AttributeSorts) : result Body :=
  let! key_form := validate_key_form is_referenced_by key_form forms None in
  let! displays := validate_displays is_referenced_by displays forms in
  let! sorts := validate_sorts is_referenced_by sorts forms in
  let! sub_type := get_enum_val is_sub_type sub_type in
  Ok {| b_name := name;
        b_sub_type := sub_type;
        b_is_embedded := is_embedded;
        b_description := description;
        b_destination_folder_id := destination_folder_id destination_folder;
        b_forms := match forms with [] => None | _ => Some forms end;
        b_attribute_lookup_table := attribute_lookup_table;
        b_key_form := Some key_form;
        b_displays := Some displays;
        b_sorts := sorts |}.

Definition _attribute_data_to_update_attribute_dto (attribute : Attribute)
    (attribute_data : AttributeData) : result UpdateAttributeDto :=
  let! body :=
    _get_create_body (d_name attribute_data) (d_sub_type attribute_data)
      (d_destination_folder attribute_data) (d_forms attribute_data)
      (d_key_form attribute_data) (d_displays attribute_data)
      (d_description attribute_data) (d_is_embedded attribute_data)
      (d_attribute_lookup_table attribute_data) (d_sorts attribute_data) in
  Ok {| dto_id := id attribute; dto_body := body;
        dto_show_expression_as := d_show_expression_as attribute_data |}.

(** [{attribute_data.name: attribute_data for ...}]: a later record with
    the same name replaces an earlier one. *)
Definition attributes_data_dict (attributes_data : list AttributeData)
  : gmap string AttributeData :=
  fold_left (fun m d => <[d_name d := d]> m) attributes_data ∅.

(** The closing loop: [attribute.alter(hidden=...)] for every updated
    attribute whose record asks for it. *)
Fixpoint alter_hidden (dict : gmap string AttributeData)
    (updated : list Response) : result unit * list NetCall :=
  match updated with
  | [] => (Ok tt, [])
  | attribute :: updated' =>
      match dict !! r_name attribute with
      | None => (Raise (KeyError (r_name attribute)), [])
      | Some attribute_data =>
          let calls :=
            match d_hidden attribute_data with
            | Some true => [AlterHidden (r_id attribute) true]
            | _ => []
            end in
          let '(r, calls') := alter_hidden dict updated' in
          (r, calls ++ calls')
      end
  end.

Definition length_mismatch_msg : string :=
  "Length of attributes list must match length of attributes_data list".

(** The result pairs what the call returns with the network calls made,
    oldest first. *)
Definition update_many (attributes_list : list Attribute)
    (attributes_data : list AttributeData) (changeset_id : option string)
  : result (list Response) * list NetCall :=
  if negb (bool_decide (length attributes_list = length attributes_data))
  then (Raise (ValueError length_mismatch_msg), [])
  else
    match comprehension
            (fun '(attribute, attribute_data) =>
               _attribute_data_to_update_attribute_dto attribute attribute_data)
            (zip attributes_list attributes_data) with
    | Raise e => (Raise e, [])
    | Ok update_attribute_dtos =>
        let responses := update_attributes update_attribute_dtos changeset_id in
        let updated_attributes :=
          map fst (zip responses attributes_data) in
        let '(r, calls) :=
          alter_hidden (attributes_data_dict attributes_data) updated_attributes in
        (check! r in Ok updated_attributes,
         UpdateAttributes update_attribute_dtos changeset_id :: calls)
    end.

End Batch.

(** ** Subscription manager *)

Module SubscriptionManager.

(** [delivery_mode] is the string held in [subscription.delivery.mode]. *)
Record Subscription : Type := mkSubscription {
  sub_id : string;
  sub_name : string;
  delivery_mode : string;
}.

(** An element of the argument of [execute]: an object or an id. *)
Inductive SubscriptionArg : Type :=
  | Object (s : Subscription)
  | Id (i : string).

Inductive SubEvent : Type :=
  | Info (msg : string)
  | Execute (s : Subscription)
  | UserWarning (msg : string).

Global Instance Subscription_eq_dec : EqDecision Subscription.
Proof. solve_decision. Defined.
Global Instance SubEvent_eq_dec : EqDecision SubEvent.
Proof. solve_decision. Defined.

Definition supported_modes : list string :=
  ["EMAIL"; "FILE"; "HISTORY_LIST"; "FTP"].

(** [subscription.delivery.mode in ('EMAIL', 'FILE', 'HISTORY_LIST', 'FTP')] *)
Definition supported (s : Subscription) : bool :=
  bool_decide (delivery_mode s ∈ supported_modes).

Definition not_supported_msg (s : Subscription) : string :=
  "Subscription '" +:+ sub_name s +:+ "' with ID '" +:+ sub_id s
  +:+ "' could not be executed. Delivery mode '" +:+ delivery_mode s
  +:+ "' is not supported.".

Section Manager.

(** [config.verbose], and the subscription that the constructor
    [Subscription(connection, id, project_id)] fetches for an id. *)
Variable verbose : bool.
Variable fetch : string -> Subscription.

Definition resolve (arg : SubscriptionArg) : Subscription :=
  match arg with
  | Object s => s
  | Id i => fetch i
  end.

(** One turn of the loop of [execute]. *)
Definition execute_one (arg : SubscriptionArg) : list SubEvent :=
  let subscription := resolve arg in
  if supported subscription
  then [Execute subscription]
  else [UserWarning (not_supported_msg subscription)].

(** [execute] returns nothing; the result is the list of its events. *)
Definition execute (subscriptions : list SubscriptionArg) : list SubEvent :=
  if bool_decide (subscriptions = []) && verbose
  then [Info "No subscriptions passed."]
  else fold_left (fun log arg => log ++ execute_one arg) subscriptions [].

End Manager.

End SubscriptionManager.

(** ** Further form management *)

(** Truthiness of an optional string: [None] and the empty string are
    falsy. *)
Definition truthy_str (x : option string) : bool :=
  match x with
  | Some s => negb (bool_decide (s = EmptyString))
  | None => false
  end.

(** [get_form]: a loop that returns at the first hit and falls off the end
    of the function, that is returns [None], without one. *)
Definition get_form (id name : option string) : M (option AttributeForm) :=
  bind! self := get_self in
  if truthy_str id then
    ret (List.find (fun f => bool_decide (form_id f = id)) (forms self))
  else if truthy_str name then
    ret (List.find (fun f => bool_decide (form_name f = name)) (forms self))
  else raise (ValueError "Provide id or name.").

(** The entity with its list of forms replaced; the forms of the list are
    the objects that the methods alter in place. *)
Definition with_forms (w : World) (fs : list AttributeForm) : World :=
  {| self := {| id := id (self w);
                attr_name := attr_name (self w);
                attr_sub_type := attr_sub_type (self w);
                attribute_lookup_table := attribute_lookup_table (self w);
                forms := fs;
                key_form := key_form (self w);
                displays := displays (self w);
                sorts := sorts (self w);
                relationships := relationships (self w) |};
     events := events w |}.

Definition forms_only (fs : list AttributeForm) : Properties :=
  {| p_key_form := None; p_forms := Some fs; p_displays := None;
     p_sorts := None; p_relationships := None |}.

Section AlterForm.

(** The mutation [func(form, **params)]: it raises, or it leaves the form
    object altered. *)
Variable func : AttributeForm -> result AttributeForm.

(** The loop of [__alter_form_with_id] over the forms still to visit:
    the forms as the loop leaves them, the flag, and the exception that
    ended the loop early, if any. *)
Fixpoint alter_loop (form_id : string) (todo : list AttributeForm)
    (is_form_found : bool) : list AttributeForm * bool * option exn :=
  match todo with
  | [] => ([], is_form_found, None)
  | f :: todo' =>
      if has_id form_id f then
        match func f with
        | Raise e => (f :: todo', true, Some e)
        | Ok f' =>
            let '(forms, found, e) := alter_loop form_id todo' true in
            (f' :: forms, found, e)
        end
      else
        let '(forms, found, e) := alter_loop form_id todo' is_form_found in
        (f :: forms, found, e)
  end.

Definition __alter_form_with_id (form_id : string) : M unit :=
  fun w =>
    let '(forms, is_form_found, e) := alter_loop form_id (forms (self w)) false in
    let w := with_forms w forms in
    match e with
    | Some e => (Raise e, w)
    | None =>
        if negb is_form_found
        then (Raise (ValueError ("Attribute Form with ID: " +:+ form_id
                                 +:+ " has not been found.")), w)
        else _alter_properties (forms_only forms) w
    end.

End AlterForm.

(** A fact expression; the code under study reads nothing of it. *)
Record FactExpression : Type := mkFactExpression {
  expression_id : option string;
  tables : list SchemaObjectReference;
}.

(** The raw fields of [add_form] that decide its branch, and the name. *)
Record FormFields : Type := mkFormFields {
  ff_name : option string;
  ff_expressions : option (list FactExpression);
  ff_lookup_table : option SchemaObjectReference;
}.

Definition add_form_msg : string :=
  "Please provide either `form` or `expressions` and `lookup_table`".

Section AddForm.

(** [AttributeForm.local_create] on the fields given. *)
Variable local_create : FormFields -> result AttributeForm.

Definition add_form (form : option AttributeForm) (fields : FormFields)
  : M unit :=
  bind! self := get_self in
  match form with
  | Some form => _alter_properties (forms_only (forms self ++ [form]))
  | None =>
      if truthy (ff_expressions fields)
         && bool_decide (is_Some (ff_lookup_table fields))
      then
        bind! new_form := lift (local_create fields) in
        _alter_properties (forms_only (forms self ++ [new_form]))
      else raise (AttributeError add_form_msg)
  end.

End AddForm.

(** ** Batch creation *)

Record CreateAttributeDto : Type := mkCreateAttributeDto {
  cdto_body : Body;
  cdto_show_expression_as : string;
}.

(** The calls of [create_many] that leave the process: the batch call, and
    then the calls of the closing loop. *)
Inductive CreateCall : Type :=
  | CreateAttributes (dtos : list CreateAttributeDto) (changeset_id : option string)
  | AfterCreate (call : NetCall).

(** [create_many] can also fail on [attributes_data[i]]. *)
Inductive create_exn : Type :=
  | Exn (e : exn)
  | IndexError.

Section BatchCreate.

Variable is_referenced_by : AttributeForm -> FormReference -> bool.
Variable is_sub_type : string -> bool.

(** The server: the answers of [attributes.create_attributes]. *)
Variable create_attributes :
  list CreateAttributeDto -> option string -> list Response.

Definition _attribute_data_to_create_attribute_dto
    (attribute_data : AttributeData) : result CreateAttributeDto :=
  let! body :=
    _get_create_body is_referenced_by is_sub_type
      (d_name attribute_data) (d_sub_type attribute_data)
      (d_destination_folder attribute_data) (d_forms attribute_data)
      (d_key_form attribute_data) (d_displays attribute_data)
      (d_description attribute_data) (d_is_embedded attribute_data)
      (d_attribute_lookup_table attribute_data) (d_sorts attribute_data) in
  Ok {| cdto_body := body;
        cdto_show_expression_as := d_show_expression_as attribute_data |}.

(** [for i, response in enumerate(responses)] reading [attributes_data[i]]:
    [None] stands for the [IndexError] of a response without a record. *)
Fixpoint enumerate_created (attributes_data : list AttributeData) (i : nat)
    (responses : list Response) : option (list Response) :=
  match responses with
  | [] => Some []
  | response :: responses' =>
      match attributes_data !! i with
      | None => None
      | Some _ =>
          match enumerate_created attributes_data (S i) responses' with
          | None => None
          | Some created => Some (response :: created)
          end
      end
  end.

Definition create_many (attributes_data : list AttributeData)
    (changeset_id : option string)
  : sum create_exn (list Response) * list CreateCall :=
  match comprehension _attribute_data_to_create_attribute_dto attributes_data with
  | Raise e => (inl (Exn e), [])
  | Ok create_attribute_dtos =>
      let responses := create_attributes create_attribute_dtos changeset_id in
      let batch := CreateAttributes create_attribute_dtos changeset_id in
      match enumerate_created attributes_data 0 responses with
      | None => (inl IndexError, [batch])
      | Some created_attributes =>
          let '(r, calls) :=
            alter_hidden (attributes_data_dict attributes_data)
                         created_attributes in
          (match r with
           | Ok _ => inr created_attributes
           | Raise e => inl (Exn e)
           end,
           batch :: map AfterCreate calls)
      end
  end.

End BatchCreate.

(** ** Deleting subscriptions and listing recipients *)

Module SubscriptionBulk.

Import SubscriptionManager.

(** The argument of [_normalize_subscriptions]: a list, or one element. *)
Inductive SubscriptionsArg : Type :=
  | Many (l : list SubscriptionArg)
  | One (a : SubscriptionArg).

Inductive BulkEvent : Type :=
  | Prompt
  | RemoveSubscription (s : Subscription)
  | DeleteWarning (msg : string).

Global Instance BulkEvent_eq_dec : EqDecision BulkEvent.
Proof. solve_decision. Defined.

Definition is_remove (e : BulkEvent) : option Subscription :=
  match e with RemoveSubscription s => Some s | _ => None end.

Definition could_not_delete_msg (s : Subscription) : string :=
  "Subscription '" +:+ sub_name s +:+ "' with id '" +:+ sub_id s
  +:+ "' could not be deleted.".

Section Bulk.

(** The subscription fetched for an id, whether the server accepts the
    removal of a subscription, and what the user types at the prompt. *)
Variable fetch : string -> Subscription.
Variable remove_ok : Subscription -> bool.
Variable answer : string.

Definition _normalize_subscriptions (subscriptions : SubscriptionsArg)
  : list Subscription :=
  let subscriptions :=
    match subscriptions with
    | Many l => l
    | One a => [a]
    end in
  map (resolve fetch) subscriptions.

(** Modelled from the spec: the request wrapper is not part of the sources
    at hand; a refused removal is reported as a warning and the response
    is not ok. *)
Definition _delete_subscription (subscription : Subscription)
  : bool * list BulkEvent :=
  let ok := remove_ok subscription in
  (ok,
   RemoveSubscription subscription
   :: if ok then [] else [DeleteWarning (could_not_delete_msg subscription)]).

(** [sum(1 for subscription in subscriptions if
    self._delete_subscription(subscription))] *)
Definition count_step (acc : nat * list BulkEvent)
    (subscription : Subscription) : nat * list BulkEvent :=
  let '(succeeded, log) := acc in
  let '(ok, log') := _delete_subscription subscription in
  (if ok then S succeeded else succeeded, log ++ log').

Definition count_deleted (subscriptions : list Subscription)
    (start : nat * list BulkEvent) : nat * list BulkEvent :=
  fold_left count_step subscriptions start.

Definition delete (subscriptions : SubscriptionsArg) (force : bool)
  : bool * list BulkEvent :=
  let subscriptions := _normalize_subscriptions subscriptions in
  if bool_decide (subscriptions = []) then (false, [])
  else if negb force && negb (bool_decide (answer = "Y"))
  then (false, [Prompt])
  else
    let '(succeeded, log) :=
      count_deleted subscriptions (0, if force then [] else [Prompt]) in
    (bool_decide (succeeded = length subscriptions), log).

End Bulk.

(** The content object; its two fields as they are read. *)
Record Content : Type := mkContent {
  content_id : option string;
  content_type : option string;
}.

(** The request of [available_recipients]: the one content of the body and
    the delivery type. *)
Record RecipientsRequest : Type := mkRecipientsRequest {
  rq_id : option string;
  rq_type : option string;
  rq_delivery_type : string;
}.

Definition recipients_msg : string :=
  "Specify either a content ID and type or content object.".

Section Recipients.

Variable verbose : bool.

(** The server: whether the response is ok, and the recipients in it. *)
Variable server : RecipientsRequest -> bool * list string.

(** Modelled from the spec: the request function
    [subscriptions_.available_recipients] is not part of the sources at
    hand.  It sends the request and hands the response over when it is ok;
    a response that is not ok is turned into [IServerError]. *)
Definition request_available_recipients (request : RecipientsRequest)
  : result (bool * list string) :=
  let '(ok, recipients) := server request in
  if ok then Ok (ok, recipients) else Raise IServerError.

(** [helper.exception_handler] with [ValueError] raises it.  The result
    pairs what the call returns with the requests sent. *)
Definition available_recipients (content_id content_type : option string)
    (content : option Content) (delivery_type : string)
  : result (option (list string)) * list RecipientsRequest :=
  match
    (if truthy_str content_id && truthy_str content_type
     then Ok (content_id, content_type)
     else match content with
          | Some content =>
              Ok (SubscriptionBulk.content_id content,
                  SubscriptionBulk.content_type content)
          | None => Raise (ValueError recipients_msg)
          end)
  with
  | Raise e => (Raise e, [])
  | Ok (content_id, content_type) =>
      let request := {| rq_id := content_id; rq_type := content_type;
                        rq_delivery_type := delivery_type |} in
      match request_available_recipients request with
      | Raise e => (Raise e, [request])
      | Ok (ok, recipients) =>
          (Ok (if ok && verbose then Some recipients else None), [request])
      end
  end.

End Recipients.

End SubscriptionBulk.

(** ** Vocabulary of the statements *)

(** A reference resolves in [forms] when some form of the list is
    referenced by it. *)
Definition resolves (is_referenced_by : AttributeForm -> FormReference -> bool)
    (forms : list AttributeForm) (ref : FormReference) : Prop :=
  exists f, f ∈ forms /\ is_referenced_by f ref = true.

(** A form is identified when it has an id; a form that was built locally
    and not yet sent to the server has none. *)
Definition identified (f : AttributeForm) : Prop := form_id f <> None.
Definition all_identified (forms : list AttributeForm) : Prop :=
  Forall identified forms.

(** The displays whose validation builds the references to all forms: one
    of their two lists is empty. *)
Definition needs_population (d : AttributeDisplays) : Prop :=
  report_displays d = [] \/ browse_displays d = [].

(** The display lists after the repopulation step of [validate_displays]. *)
Definition repopulated (forms : list AttributeForm) (d : AttributeDisplays)
  : AttributeDisplays :=
  {| report_displays :=
       if decide (report_displays d = []) then map by_id forms
       else report_displays d;
     browse_displays :=
       if decide (browse_displays d = []) then map by_id forms
       else browse_displays d |}.

(** The form references of a sort sub-list; none when the list is unset. *)
Definition sort_refs (l : option (list AttributeSort)) : list FormReference :=
  map form (default [] l).

(** The references of a display or sort list of an attribute with the two
    forms [A] and [B] are in order when each of them points to [A] or to
    [B] and at most one of them points to [A]. *)
Definition single_reference (is_referenced_by : AttributeForm -> FormReference -> bool)
    (A B : AttributeForm) (refs : list FormReference) : Prop :=
  (forall r, r ∈ refs -> is_referenced_by A r = true \/ is_referenced_by B r = true)
  /\ length (filter (fun r => is_referenced_by A r = true) refs) <= 1.

(** The references of a display or sort list are in order for the removal
    of the form [A], with the forms [rest] left, when each of them points
    to [A] or resolves in [rest] and at most one of them points to [A]. *)
Definition in_order (is_referenced_by : AttributeForm -> FormReference -> bool)
    (A : AttributeForm) (rest : list AttributeForm)
    (refs : list FormReference) : Prop :=
  (forall r, r ∈ refs -> is_referenced_by A r = true
                         \/ resolves is_referenced_by rest r)
  /\ length (filter (fun r => is_referenced_by A r = true) refs) <= 1.

(** Every form of [rest] has an id, and the reference that holds this id
    points to the form and not to [A]. *)
Definition own_references (is_referenced_by : AttributeForm -> FormReference -> bool)
    (A : AttributeForm) (rest : list AttributeForm) : Prop :=
  forall f, f ∈ rest ->
    identified f /\ is_referenced_by f (by_id f) = true
    /\ is_referenced_by A (by_id f) = false.

(** The update that carries a relationship collection and nothing else. *)
Definition relationships_only (rels : list Relationship) : Properties :=
  {| p_key_form := None; p_forms := None; p_displays := None;
     p_sorts := None; p_relationships := Some rels |}.

(** The world after the collection [rels] was submitted: the entity holds
    it and the log has one more update. *)
Definition resubmitted (w : World) (rels : list Relationship) : World :=
  {| self := apply_properties (relationships_only rels) (self w);
     events := events w ++ [AlterProperties (relationships_only rels)] |}.

(** Adding the relationship [rel] by [add] and removing it by [remove] is
    a round trip from [w]: [add] submits the collection of [w] with [rel]
    at its end, which the entity then holds, and [remove], run in the world
    that results, submits the collection as it was in [w], which the entity
    holds afterwards; the log has grown by these two updates, in this
    order. *)
Definition round_trip (w : World) (rel : Relationship) (add remove : M unit)
  : Prop :=
  let rels := relationships (self w) in
  let w1 := resubmitted w (rels ++ [rel]) in
  let w2 := resubmitted w1 rels in
  add w = (Ok tt, w1)
  /\ remove w1 = (Ok tt, w2)
  /\ relationships (self w1) = rels ++ [rel]
  /\ relationships (self w2) = rels
  /\ events w2
     = events w ++ [AlterProperties (relationships_only (rels ++ [rel]));
                    AlterProperties (relationships_only rels)].

(** The world after a warning: the entity is as it was. *)
Definition warned (w : World) (msg : string) : World :=
  {| self := self w; events := events w ++ [Warning msg] |}.


(** The request that [available_recipients] sends: about the content id
    and type that were passed when both are non-empty strings, about the
    content object otherwise, its two fields being read as they are. *)
Definition request_for (content_id content_type : option string)
    (content : option SubscriptionBulk.Content) (delivery_type : string)
  : SubscriptionBulk.RecipientsRequest :=
  if truthy_str content_id && truthy_str content_type
  then {| SubscriptionBulk.rq_id := content_id;
          SubscriptionBulk.rq_type := content_type;
          SubscriptionBulk.rq_delivery_type := delivery_type |}
  else {| SubscriptionBulk.rq_id :=
            content ≫= SubscriptionBulk.content_id;
          SubscriptionBulk.rq_type :=
            content ≫= SubscriptionBulk.content_type;
          SubscriptionBulk.rq_delivery_type := delivery_type |}.

(** ** Concrete data used by the examples *)

(** Modelled from the spec: the enumeration [ObjectSubType] is not part of
    the sources at hand; the examples take the sub types of attributes for
    its values. *)
Definition is_sub_type_spec (s : string) : bool :=
  bool_decide (s ∈ ["attribute"; "attribute_abstract"; "attribute_recursive";
                    "attribute_role"; "attribute_transformation"]).

Definition formA : AttributeForm :=
  {| form_id := Some "A1"; form_name := Some "ID" |}.
Definition formB : AttributeForm :=
  {| form_id := Some "B2"; form_name := Some "DESC" |}.
Definition formC : AttributeForm :=
  {| form_id := Some "C3"; form_name := Some "LONG" |}.

Definition attrAB : Attribute :=
  {| id := "ATTR"; attr_name := "Customer"; attr_sub_type := "attribute";
     attribute_lookup_table := None;
     forms := [formA; formB];
     key_form := by_id formA;
     displays := Some {| report_displays := [by_id formA; by_id formB];
                         browse_displays := [by_id formA] |};
     sorts := Some {| report_sorts := Some [ {| form := by_id formA; ascending := true |} ];
                      browse_sorts := None |};
     relationships := [] |}.
Definition w0 := {| self := attrAB; events := [] |}.

(** The attribute [attrAB] without sorts. *)
Definition attrAB_no_sorts : Attribute :=
  {| id := id attrAB; attr_name := attr_name attrAB;
     attr_sub_type := attr_sub_type attrAB;
     attribute_lookup_table := attribute_lookup_table attrAB;
     forms := forms attrAB; key_form := key_form attrAB;
     displays := displays attrAB; sorts := None;
     relationships := relationships attrAB |}.

(** The attribute [attrAB] with [formA] as its only form. *)
Definition attrA : Attribute :=
  {| id := id attrAB; attr_name := attr_name attrAB;
     attr_sub_type := attr_sub_type attrAB;
     attribute_lookup_table := attribute_lookup_table attrAB;
     forms := [formA]; key_form := key_form attrAB;
     displays := displays attrAB; sorts := sorts attrAB;
     relationships := relationships attrAB |}.

Definition wA : World := {| self := attrA; events := [] |}.
Definition w_no_sorts : World := {| self := attrAB_no_sorts; events := [] |}.

(** Sorts whose two sub-lists are empty lists. *)
Definition empty_sorts : AttributeSorts :=
  {| report_sorts := Some []; browse_sorts := Some [] |}.

(** A form without name, and a form that was built locally and has no id
    yet. *)
Definition form_unnamed : AttributeForm :=
  {| form_id := Some "N1"; form_name := None |}.
Definition form_local : AttributeForm :=
  {| form_id := None; form_name := Some "LOCAL" |}.

(** Displays with an empty report list. *)
Definition browse_only : AttributeDisplays :=
  {| report_displays := []; browse_displays := [by_id formA] |}.

Definition attr_region : SchemaObjectReference :=
  {| sub_type := "attribute"; object_id := "R1"; name := "Region" |}.
Definition attr_city : SchemaObjectReference :=
  {| sub_type := "attribute"; object_id := "C1"; name := "City" |}.

(** [attrAB] as the parent of the joint children Region and City. *)
Definition rel_joint : Relationship :=
  new_Relationship ONE_TO_MANY None (create_from attrAB) None
    (Some [attr_region; attr_city]).

Definition attr_joint : Attribute :=
  {| id := id attrAB; attr_name := attr_name attrAB;
     attr_sub_type := attr_sub_type attrAB;
     attribute_lookup_table := attribute_lookup_table attrAB;
     forms := forms attrAB; key_form := key_form attrAB;
     displays := displays attrAB; sorts := sorts attrAB;
     relationships := [rel_joint] |}.
Definition w_joint : World := {| self := attr_joint; events := [] |}.

(** The world after the first [add_child] of City, and after the first
    [add_parent] of Region, on [attrAB]. *)
Definition w_city : World :=
  snd (add_child (Some attr_city) None ONE_TO_MANY None w0).
Definition w_region : World :=
  snd (add_parent attr_region ONE_TO_MANY None w0).

(** [attrAB] with the same relationship twice. *)
Definition rel_city : Relationship :=
  new_Relationship ONE_TO_MANY None (create_from attrAB) (Some attr_city) None.
Definition w_twice : World :=
  {| self :=
       {| id := id attrAB; attr_name := attr_name attrAB;
          attr_sub_type := attr_sub_type attrAB;
          attribute_lookup_table := attribute_lookup_table attrAB;
          forms := forms attrAB; key_form := key_form attrAB;
          displays := displays attrAB; sorts := sorts attrAB;
          relationships := [rel_city; rel_city] |};
     events := [] |}.

(** A server that answers every update with the id and the name sent. *)
Definition echo_server (dtos : list UpdateAttributeDto)
    (changeset_id : option string) : list Response :=
  map (fun dto => {| r_id := dto_id dto; r_name := b_name (dto_body dto) |}) dtos.

Definition data_customer : AttributeData :=
  {| d_name := "Customer"; d_sub_type := "attribute";
     d_destination_folder := FolderId "F0";
     d_forms := [formA; formB]; d_key_form := Some (by_id formA);
     d_displays := None; d_description := None; d_is_embedded := false;
     d_attribute_lookup_table := None; d_sorts := None;
     d_show_expression_as := "tree"; d_hidden := None |}.


Definition cache_subscription : SubscriptionManager.Subscription :=
  {| SubscriptionManager.sub_id := "S1";
     SubscriptionManager.sub_name := "Nightly cache";
     SubscriptionManager.delivery_mode := "CACHE" |}.
Definition email_subscription : SubscriptionManager.Subscription :=
  {| SubscriptionManager.sub_id := "S2";
     SubscriptionManager.sub_name := "Weekly report";
     SubscriptionManager.delivery_mode := "EMAIL" |}.

(** A server that knows the subscription [S2] only by its id. *)
Definition fetch_subscription (i : string) : SubscriptionManager.Subscription :=
  if decide (i = "S2") then email_subscription else cache_subscription.

(** [attrAB] with the third form [formC]. *)
Definition attrABC : Attribute :=
  {| id := id attrAB; attr_name := attr_name attrAB;
     attr_sub_type := attr_sub_type attrAB;
     attribute_lookup_table := attribute_lookup_table attrAB;
     forms := [formA; formB; formC]; key_form := key_form attrAB;
     displays := displays attrAB; sorts := sorts attrAB;
     relationships := relationships attrAB |}.
Definition w_abc : World := {| self := attrABC; events := [] |}.

(** The displays [browse_only] after validation against both forms. *)
Definition both_lists : AttributeDisplays :=
  {| report_displays := [by_id formA; by_id formB];
     browse_displays := [by_id formA] |}.

(** A form with an id that [attrAB] does not use. *)
Definition formD : AttributeForm :=
  {| form_id := Some "D4"; form_name := Some "SHORT" |}.

(** A mutation that renames a form, and one that refuses every form. *)
Definition rename_to (n : string) (f : AttributeForm) : result AttributeForm :=
  Ok {| form_id := form_id f; form_name := Some n |}.
Definition refuse (f : AttributeForm) : result AttributeForm :=
  Raise (ValueError "refused").

(** A [local_create] that builds a form without id from the name given. *)
Definition create_unnamed (fields : FormFields) : result AttributeForm :=
  Ok {| form_id := None; form_name := ff_name fields |}.

(** A server that answers every update under the name Other, and one that
    answers every creation twice. *)
Definition renaming_server (dtos : list UpdateAttributeDto)
    (changeset_id : option string) : list Response :=
  map (fun dto => {| r_id := dto_id dto; r_name := "Other" |}) dtos.
Definition doubling_server (dtos : list CreateAttributeDto)
    (changeset_id : option string) : list Response :=
  map (fun dto => {| r_id := "NEW"; r_name := b_name (cdto_body dto) |})
      (dtos ++ dtos).

(** The record [data_customer] asking for a hidden attribute. *)
Definition data_hidden : AttributeData :=
  {| d_name := "Customer"; d_sub_type := "attribute";
     d_destination_folder := FolderId "F0";
     d_forms := [formA; formB]; d_key_form := Some (by_id formA);
     d_displays := None; d_description := None; d_is_embedded := false;
     d_attribute_lookup_table := None; d_sorts := None;
     d_show_expression_as := "tree"; d_hidden := Some true |}.

(** A server that refuses to remove the cache subscription. *)
Definition keeps_cache (s : SubscriptionManager.Subscription) : bool :=
  negb (bool_decide (SubscriptionManager.delivery_mode s = "CACHE")).

(** A server that knows two recipients for every content. *)
Definition two_recipients (request : SubscriptionBulk.RecipientsRequest)
  : bool * list string :=
  (true, ["U1"; "U2"]).

(** * Properties *)

(** ** Resolution of references *)

Lemma not_true_false (b : bool) : b <> true -> b = false.
Proof. by destruct b. Qed.

(** ** The reference constructor *)

Lemma ref_by_name_named f :
  form_name f <> None -> ref_by_name f = Ok (by_name f).
Proof. unfold ref_by_name, by_name. by destruct (form_name f). Qed.

Lemma ref_by_name_unnamed f :
  form_name f = None ->
  ref_by_name f = Raise (AttributeError no_id_or_name_msg).
Proof. unfold ref_by_name. by intros ->. Qed.

Lemma ref_by_id_identified f :
  identified f -> ref_by_id f = Ok (by_id f).
Proof. unfold identified, ref_by_id, by_id. by destruct (form_id f). Qed.

Lemma ref_by_id_unidentified f :
  ~ identified f -> ref_by_id f = Raise (AttributeError no_id_or_name_msg).
Proof.
  unfold identified, ref_by_id. destruct (form_id f); [|done].
  intros H. by destruct H.
Qed.

Lemma ref_by_name_inv f r :
  ref_by_name f = Ok r -> r = by_name f /\ form_name f <> None.
Proof.
  unfold ref_by_name, by_name. destruct (form_name f); [|done].
  by intros [= <-].
Qed.

Lemma form_refs_identified forms :
  all_identified forms -> form_refs forms = Ok (map by_id forms).
Proof.
  unfold all_identified, form_refs.
  induction 1 as [|f forms Hf _ IH]; simpl; [done|].
  by rewrite (ref_by_id_identified _ Hf), IH.
Qed.

Lemma form_refs_unidentified forms :
  ~ all_identified forms ->
  form_refs forms = Raise (AttributeError no_id_or_name_msg).
Proof.
  unfold all_identified, form_refs.
  induction forms as [|f forms IH]; intros Hids; simpl.
  - by destruct Hids.
  - destruct (decide (identified f)) as [Hf|Hf].
    + rewrite (ref_by_id_identified _ Hf). cbn [result_bind].
      rewrite IH; [done|]. intros Hrest. apply Hids. by constructor.
    + by rewrite (ref_by_id_unidentified _ Hf).
Qed.

Lemma form_refs_inv forms refs :
  form_refs forms = Ok refs -> refs = map by_id forms /\ all_identified forms.
Proof.
  intros Hrefs. destruct (decide (all_identified forms)) as [Hids|Hids].
  - rewrite (form_refs_identified _ Hids) in Hrefs. by injection Hrefs as <-.
  - by rewrite (form_refs_unidentified _ Hids) in Hrefs.
Qed.

Section ValidatorFacts.

Variable is_referenced_by : AttributeForm -> FormReference -> bool.

Lemma any_referenced_resolves forms ref :
  any_referenced is_referenced_by forms ref = true <-> resolves is_referenced_by forms ref.
Proof.
  unfold any_referenced, resolves. rewrite existsb_exists.
  split; intros (f & Hin & Hf); exists f; split; auto;
    by apply list_elem_of_In.
Qed.

Lemma referenced_flag_fold forms ref (flag : bool) :
  fold_left (fun flag f => if is_referenced_by f ref then true else flag)
            forms flag
  = flag || any_referenced is_referenced_by forms ref.
Proof.
  revert flag. induction forms as [|f forms IH]; intros flag; simpl.
  - by rewrite orb_false_r.
  - rewrite IH. destruct (is_referenced_by f ref), flag; reflexivity.
Qed.

Lemma referenced_flag_any forms ref :
  referenced_flag is_referenced_by forms ref
  = any_referenced is_referenced_by forms ref.
Proof. unfold referenced_flag. by rewrite referenced_flag_fold. Qed.

Lemma referenced_flag_resolves forms ref :
  referenced_flag is_referenced_by forms ref = true <-> resolves is_referenced_by forms ref.
Proof. rewrite referenced_flag_any. apply any_referenced_resolves. Qed.

Lemma check_all_resolve msg forms refs :
  (forall ref, ref ∈ refs -> resolves is_referenced_by forms ref) ->
  check_if_referenced_forms_exist is_referenced_by msg forms refs = Ok tt.
Proof.
  induction refs as [|ref refs IH]; intros Hall; simpl; [done|].
  assert (Href : referenced_flag is_referenced_by forms ref = true).
  { apply referenced_flag_resolves, Hall. by left. }
  rewrite Href. apply IH. intros r Hr. apply Hall. by right.
Qed.

Lemma check_some_dangling msg forms refs :
  (exists ref, ref ∈ refs /\ ~ resolves is_referenced_by forms ref) ->
  check_if_referenced_forms_exist is_referenced_by msg forms refs
  = Raise (AttributeError msg).
Proof.
  induction refs as [|ref refs IH]; intros (r & Hin & Hr); simpl.
  - by apply elem_of_nil in Hin.
  - destruct (referenced_flag is_referenced_by forms ref) eqn:Href; [|done].
    apply IH. apply elem_of_cons in Hin as [->|Hin].
    + exfalso. by apply Hr, referenced_flag_resolves.
    + by exists r.
Qed.

(** The check has two outcomes only. *)
Lemma check_outcome msg forms refs :
  (check_if_referenced_forms_exist is_referenced_by msg forms refs = Ok tt
   /\ forall ref, ref ∈ refs -> resolves is_referenced_by forms ref)
  \/ (check_if_referenced_forms_exist is_referenced_by msg forms refs
      = Raise (AttributeError msg)
      /\ exists ref, ref ∈ refs /\ ~ resolves is_referenced_by forms ref).
Proof.
  induction refs as [|ref refs IH]; simpl.
  - left. split; [done|]. intros r Hr. by apply elem_of_nil in Hr.
  - destruct (referenced_flag is_referenced_by forms ref) eqn:Href.
    + destruct IH as [[-> Hall]|[-> (r & Hin & Hr)]].
      * left. split; [done|]. intros r [->|Hr]%elem_of_cons; [|by auto].
        by apply referenced_flag_resolves.
      * right. split; [done|]. exists r. split; [by right|done].
    + right. split; [done|]. exists ref. split; [by left|].
      intros Hres%referenced_flag_resolves. congruence.
Qed.

(** C1, as the code has it.  The key-form validator: an empty forms list
    fails; a one-element forms list yields the reference (by name) to its
    single form whatever key form was supplied, a missing one included,
    when that form has a name, and the [AttributeError] of the reference
    constructor when it has none; with two or more forms the supplied key
    form is returned unchanged when it references at least one form, and
    the validation fails otherwise. *)
Theorem validate_key_form_cases :
  (forall key_form error_msg,
      exists msg, validate_key_form is_referenced_by key_form [] error_msg
                  = Raise (AttributeError msg))
  /\ (forall key_form f error_msg,
         form_name f <> None ->
         validate_key_form is_referenced_by key_form [f] error_msg
         = Ok (by_name f))
  /\ (forall key_form f error_msg,
         form_name f = None ->
         validate_key_form is_referenced_by key_form [f] error_msg
         = Raise (AttributeError no_id_or_name_msg))
  /\ (forall kf forms error_msg,
         2 <= length forms -> resolves is_referenced_by forms kf ->
         validate_key_form is_referenced_by (Some kf) forms error_msg = Ok kf)
  /\ (forall key_form forms error_msg,
         2 <= length forms ->
         (forall kf, key_form = Some kf -> ~ resolves is_referenced_by forms kf) ->
         exists msg, validate_key_form is_referenced_by key_form forms error_msg
                     = Raise (AttributeError msg)).
Proof.
  split_and!.
  - intros. by eexists.
  - intros key_form f msg Hname. by apply ref_by_name_named.
  - intros key_form f msg Hname. by apply ref_by_name_unnamed.
  - intros kf [|f1 [|f2 forms]] msg Hlen Hres; simpl in Hlen; try lia.
    apply any_referenced_resolves in Hres.
    unfold validate_key_form. by rewrite Hres.
  - intros key_form [|f1 [|f2 forms]] msg Hlen Hnone; simpl in Hlen; try lia.
    unfold validate_key_form. destruct key_form as [kf|]; [|by eexists].
    destruct (any_referenced is_referenced_by (f1 :: f2 :: forms) kf) eqn:Hany.
    + exfalso. apply (Hnone kf eq_refl). by apply any_referenced_resolves.
    + by eexists.
Qed.

Lemma populate_if_empty_decide forms refs :
  (refs = [] -> all_identified forms) ->
  populate_if_empty forms refs
  = Ok (if decide (refs = []) then map by_id forms else refs).
Proof.
  destruct refs; [|done]. intros Hids. rewrite decide_True by done.
  simpl. apply form_refs_identified. by apply Hids.
Qed.

Lemma populate_if_empty_raises forms refs :
  refs = [] -> ~ all_identified forms ->
  populate_if_empty forms refs = Raise (AttributeError no_id_or_name_msg).
Proof. intros -> Hids. simpl. by apply form_refs_unidentified. Qed.

Lemma populate_if_empty_inv forms refs refs' :
  populate_if_empty forms refs = Ok refs' ->
  refs' = (if decide (refs = []) then map by_id forms else refs)
  /\ (refs = [] -> all_identified forms).
Proof.
  destruct refs; simpl.
  - intros [-> Hids]%form_refs_inv. done.
  - intros [= <-]. done.
Qed.

Lemma validate_displays_present d forms :
  (needs_population d -> all_identified forms) ->
  validate_displays is_referenced_by (Some d) forms
  = (check! check_if_referenced_forms_exist is_referenced_by displays_error_msg
              forms (report_displays (repopulated forms d)) in
     check! check_if_referenced_forms_exist is_referenced_by displays_error_msg
              forms (browse_displays (repopulated forms d)) in
     Ok (repopulated forms d)).
Proof.
  intros Hids. unfold validate_displays, repopulated, needs_population in *.
  rewrite (populate_if_empty_decide _ (report_displays d)) by auto.
  cbn [result_bind browse_displays].
  rewrite (populate_if_empty_decide _ (browse_displays d)) by auto.
  done.
Qed.

Lemma validate_displays_unidentified d forms :
  needs_population d -> ~ all_identified forms ->
  validate_displays is_referenced_by (Some d) forms
  = Raise (AttributeError no_id_or_name_msg).
Proof.
  intros Hneeds Hids. unfold validate_displays.
  destruct (decide (report_displays d = [])) as [Hr|Hr].
  - by rewrite (populate_if_empty_raises _ _ Hr Hids).
  - rewrite (populate_if_empty_decide _ (report_displays d)) by done.
    cbn [result_bind browse_displays].
    destruct Hneeds as [?|Hb]; [done|].
    by rewrite (populate_if_empty_raises _ _ Hb Hids).
Qed.

Lemma validate_displays_accepts d forms :
  (needs_population d -> all_identified forms) ->
  (forall ref,
      ref ∈ report_displays (repopulated forms d)
            ++ browse_displays (repopulated forms d) ->
      resolves is_referenced_by forms ref) ->
  validate_displays is_referenced_by (Some d) forms = Ok (repopulated forms d).
Proof.
  intros Hids H. rewrite validate_displays_present by done.
  rewrite !check_all_resolve; [done| |];
    intros ref Href; apply H, elem_of_app; auto.
Qed.

(** C2, as the code has it.  The displays validator builds the references
    (by id) to all forms when the displays are absent or when one of their
    two lists is empty, and this fails with the [AttributeError] of the
    reference constructor when some form has no id.  Otherwise: without
    displays both lists of the result are the references to all forms, each
    of which resolves as soon as every form is referenced by its own id;
    with displays, an empty list is replaced by the references to all
    forms, and then the validation fails when some reference of either list
    resolves to no form and returns the repopulated displays otherwise. *)
Theorem validate_displays_cases (forms : list AttributeForm) :
  (all_identified forms ->
   validate_displays is_referenced_by None forms
   = Ok {| report_displays := map by_id forms;
           browse_displays := map by_id forms |})
  /\ (~ all_identified forms ->
      validate_displays is_referenced_by None forms
      = Raise (AttributeError no_id_or_name_msg))
  /\ ((forall f, f ∈ forms -> is_referenced_by f (by_id f) = true) ->
      forall ref, ref ∈ map by_id forms ->
                  resolves is_referenced_by forms ref)
  /\ (forall d,
         (needs_population d -> all_identified forms) ->
         (forall ref,
             ref ∈ report_displays (repopulated forms d)
                   ++ browse_displays (repopulated forms d) ->
             resolves is_referenced_by forms ref) ->
         validate_displays is_referenced_by (Some d) forms
         = Ok (repopulated forms d))
  /\ (forall d,
         (needs_population d -> all_identified forms) ->
         (exists ref,
             ref ∈ report_displays (repopulated forms d)
                   ++ browse_displays (repopulated forms d)
             /\ ~ resolves is_referenced_by forms ref) ->
         validate_displays is_referenced_by (Some d) forms
         = Raise (AttributeError displays_error_msg))
  /\ (forall d,
         needs_population d -> ~ all_identified forms ->
         validate_displays is_referenced_by (Some d) forms
         = Raise (AttributeError no_id_or_name_msg)).
Proof.
  split_and!.
  - intros Hids. unfold validate_displays.
    by rewrite (form_refs_identified _ Hids).
  - intros Hids. unfold validate_displays.
    by rewrite (form_refs_unidentified _ Hids).
  - intros Hown ref (f & -> & Hf)%list_elem_of_fmap. exists f. auto.
  - intros d. apply validate_displays_accepts.
  - intros d Hids H. rewrite validate_displays_present by done.
    destruct H as (ref & [Hin|Hin]%elem_of_app & Hdangling).
    + rewrite (check_some_dangling _ _ (report_displays _)); [done|eauto].
    + destruct (check_outcome displays_error_msg forms
                  (report_displays (repopulated forms d))) as [[-> _]|[-> _]];
        [|done].
      cbn [result_bind].
      rewrite (check_some_dangling _ _ (browse_displays _)); [done|eauto].
  - intros d. apply validate_displays_unidentified.
Qed.

Lemma validate_sorts_present s forms :
  (report_sorts s <> None \/ browse_sorts s <> None) ->
  validate_sorts is_referenced_by (Some s) forms
  = (check! check_if_referenced_forms_exist is_referenced_by sorts_error_msg
              forms (sort_refs (report_sorts s)) in
     check! check_if_referenced_forms_exist is_referenced_by sorts_error_msg
              forms (sort_refs (browse_sorts s)) in
     Ok (Some s)).
Proof.
  unfold validate_sorts, sort_refs.
  destruct (report_sorts s), (browse_sorts s); simpl; try done.
  intros [?|?]; congruence.
Qed.

Lemma validate_sorts_unset s forms :
  report_sorts s = None -> browse_sorts s = None ->
  validate_sorts is_referenced_by (Some s) forms = Ok None.
Proof. intros Hr Hb. unfold validate_sorts. by rewrite Hr, Hb. Qed.

Lemma validate_sorts_accepts s forms :
  report_sorts s <> None \/ browse_sorts s <> None ->
  (forall ref,
      ref ∈ sort_refs (report_sorts s) ++ sort_refs (browse_sorts s) ->
      resolves is_referenced_by forms ref) ->
  validate_sorts is_referenced_by (Some s) forms = Ok (Some s).
Proof.
  intros Hset H. rewrite validate_sorts_present by done.
  rewrite !check_all_resolve; [done| |];
    intros ref Href; apply H, elem_of_app; auto.
Qed.

(** C7, as the code has it.  The sorts validator returns [None] when the
    sorts are absent or when both sub-lists are unset ([None]); in every
    other case, sub-lists that are empty lists included, it returns the
    sorts unchanged when every form reference of the report and browse
    entries resolves to a form, and fails when some reference does not. *)
Theorem validate_sorts_cases (forms : list AttributeForm) :
  validate_sorts is_referenced_by None forms = Ok None
  /\ (forall s,
         report_sorts s = None -> browse_sorts s = None ->
         validate_sorts is_referenced_by (Some s) forms = Ok None)
  /\ (forall s,
         report_sorts s <> None \/ browse_sorts s <> None ->
         (forall ref,
             ref ∈ sort_refs (report_sorts s) ++ sort_refs (browse_sorts s) ->
             resolves is_referenced_by forms ref) ->
         validate_sorts is_referenced_by (Some s) forms = Ok (Some s))
  /\ (forall s,
         report_sorts s <> None \/ browse_sorts s <> None ->
         (exists ref,
             ref ∈ sort_refs (report_sorts s) ++ sort_refs (browse_sorts s)
             /\ ~ resolves is_referenced_by forms ref) ->
         validate_sorts is_referenced_by (Some s) forms
         = Raise (AttributeError sorts_error_msg)).
Proof.
  split; [done|]. split; [|split].
  - intros s. apply validate_sorts_unset.
  - intros s. apply validate_sorts_accepts.
  - intros s Hset (ref & [Hin|Hin]%elem_of_app & Hdangling);
      rewrite validate_sorts_present by done.
    + rewrite (check_some_dangling _ _ (sort_refs (report_sorts s))); [done|eauto].
    + destruct (check_outcome sorts_error_msg forms
                  (sort_refs (report_sorts s))) as [[-> _]|[-> _]]; [|done].
      cbn [result_bind].
      rewrite (check_some_dangling _ _ (sort_refs (browse_sorts s))); [done|eauto].
Qed.

End ValidatorFacts.

(** ** Removing a form *)

Section PopFirst.

Context {A : Type} (p : A -> bool).

Lemma pop_first_elem_of l x : x ∈ pop_first p l -> x ∈ l.
Proof.
  induction l as [|y l IH]; simpl; [done|].
  destruct (p y); [by right|].
  intros [->|H]%elem_of_cons; [by left|right; auto].
Qed.

(** When at most one element satisfies [p], none is left after the pop. *)
Lemma pop_first_clears l x :
  length (filter (fun y => p y = true) l) <= 1 ->
  x ∈ pop_first p l -> p x = false.
Proof.
  induction l as [|y l IH]; simpl; [by intros _ ?%elem_of_nil|].
  destruct (p y) eqn:Hy.
  - rewrite filter_cons_True by done. simpl. intros Hlen Hx.
    destruct (p x) eqn:Hpx; [|done].
    assert (x ∈ filter (fun y => p y = true) l) as Hin
      by (by apply list_elem_of_filter).
    destruct (filter _ l); [by apply elem_of_nil in Hin|simpl in Hlen; lia].
  - rewrite filter_cons_False by congruence.
    intros Hlen [->|Hx]%elem_of_cons; auto.
Qed.

End PopFirst.

Lemma pop_first_map {A B} (f : A -> B) (p : B -> bool) (l : list A) :
  pop_first p (map f l) = map f (pop_first (fun x => p (f x)) l).
Proof.
  induction l as [|x l IH]; simpl; [done|].
  destruct (p (f x)); [done|]. by rewrite IH.
Qed.

Lemma filter_none {A} (P : A -> Prop) `{!forall x, Decision (P x)} (l : list A) :
  (forall x, x ∈ l -> ~ P x) -> filter P l = [].
Proof.
  induction l as [|x l IH]; intros Hall; [done|].
  rewrite filter_cons_False by (apply Hall; by left).
  apply IH. intros y Hy. apply Hall. by right.
Qed.

Lemma filter_all {A} (P : A -> Prop) `{!forall x, Decision (P x)} (l : list A) :
  (forall x, x ∈ l -> P x) -> filter P l = l.
Proof.
  induction l as [|x l IH]; intros Hall; [done|].
  rewrite filter_cons_True by (apply Hall; by left).
  f_equal. apply IH. intros y Hy. apply Hall. by right.
Qed.

(** The scan of [remove_form] in closed form. *)
Lemma scan_forms_fold (i : string) (forms : list AttributeForm)
    (d : option AttributeForm) (acc : list AttributeForm) :
  fold_left
    (fun '(form_to_del, new_forms) f =>
       if has_id i f
       then (Some f, new_forms)
       else (form_to_del, new_forms ++ [f]))
    forms (d, acc)
  = (match last (filter (fun f => form_id f = Some i) forms) with
     | Some f => Some f
     | None => d
     end,
     acc ++ filter (fun f => form_id f <> Some i) forms).
Proof.
  revert d acc. induction forms as [|f forms IH]; intros d acc; simpl.
  - by rewrite app_nil_r.
  - unfold has_id at 2. case_bool_decide as Hf.
    + rewrite IH, filter_cons_True, filter_cons_False by auto.
      rewrite last_cons. by destruct (last _).
    + rewrite IH, filter_cons_False, filter_cons_True by auto.
      by rewrite <- app_assoc.
Qed.

Lemma scan_forms_spec (i : string) (forms : list AttributeForm) :
  scan_forms i forms
  = (last (filter (fun f => form_id f = Some i) forms),
     filter (fun f => form_id f <> Some i) forms).
Proof.
  unfold scan_forms. rewrite scan_forms_fold. by destruct (last _).
Qed.

Section FormFacts.

Variable is_referenced_by : AttributeForm -> FormReference -> bool.

(** C4. [remove_form] raises, and leaves the entity and the log of
    submitted updates as they were, when no form has the given id and when
    the form with that id is the only form of the attribute; the latter
    whatever new key form is passed. *)
Theorem remove_form_rejects (w : World) (fid : string) :
  ((forall f, f ∈ forms (self w) -> form_id f <> Some fid) ->
   forall new_key_form,
     exists msg, remove_form is_referenced_by fid new_key_form w
                 = (Raise (ValueError msg), w))
  /\ (forall f, forms (self w) = [f] -> form_id f = Some fid ->
      forall new_key_form,
        remove_form is_referenced_by fid new_key_form w
        = (Raise (ValueError "You can not delete the last attribute form"), w)).
Proof.
  split.
  - intros Hnone nkf. unfold remove_form, bind, get_self, raise.
    rewrite scan_forms_spec, (filter_none (fun f => form_id f = Some fid)) by done.
    simpl. by eexists.
  - intros f Hforms Hf nkf. unfold remove_form, bind, get_self, raise.
    rewrite scan_forms_spec, Hforms.
    rewrite filter_cons_True, filter_cons_False by auto. simpl. done.
Qed.

(** C10. On an attribute without sorts [remove_form] always raises and
    submits nothing, whatever the form id and the new key form are, hence
    also when the form exists, is not the last one and a valid replacement
    key form is given: the sorts step reads a field of [None]. *)
Theorem remove_form_without_sorts (w : World) (fid : string)
    (new_key_form : option FormReference) :
  sorts (self w) = None ->
  exists e, remove_form is_referenced_by fid new_key_form w = (Raise e, w).
Proof.
  intros Hsorts. unfold remove_form, bind, get_self, raise, lift, ret.
  destruct (scan_forms fid (forms (self w))) as [[form_to_del|] new_forms];
    [|by eexists].
  destruct (decide (length new_forms = 0)); [by eexists|].
  assert (Hrest : forall nkf : FormReference,
    exists e,
      match _remove_form_from_displays is_referenced_by form_to_del new_forms
              (displays (self w)) with
      | Ok displays =>
          match _remove_form_from_sorts is_referenced_by form_to_del new_forms
                  (sorts (self w)) with
          | Ok sorts0 =>
              _alter_properties
                {| p_key_form := Some nkf; p_forms := Some new_forms;
                   p_displays := Some displays; p_sorts := sorts0;
                   p_relationships := None |} w
          | Raise e => (Raise e, w)
          end
      | Raise e => (Raise e, w)
      end = (Raise e, w)).
  { intros nkf. rewrite Hsorts. simpl.
    destruct (_remove_form_from_displays _ _ _ _); by eexists. }
  destruct (is_referenced_by form_to_del (key_form (self w))); [|apply Hrest].
  destruct (validate_key_form _ _ _ _); [apply Hrest|by eexists].
Qed.

End FormFacts.

Section RemoveKeyForm.

Variable is_referenced_by : AttributeForm -> FormReference -> bool.
Variable A : AttributeForm.

Lemma popped_resolves (rest : list AttributeForm) (refs : list FormReference)
    (r : FormReference) :
  in_order is_referenced_by A rest refs ->
  r ∈ pop_first (is_referenced_by A) refs ->
  is_referenced_by A r = false /\ resolves is_referenced_by rest r.
Proof.
  intros [Hboth Hone] Hr.
  assert (HA : is_referenced_by A r = false)
    by (eapply pop_first_clears; eauto).
  split; [done|].
  destruct (Hboth r) as [?|?]; [by eapply pop_first_elem_of|congruence|done].
Qed.

Lemma repopulated_resolves (rest : list AttributeForm)
    (refs : list FormReference) (r : FormReference) :
  own_references is_referenced_by A rest ->
  in_order is_referenced_by A rest refs ->
  r ∈ (if decide (pop_first (is_referenced_by A) refs = [])
       then map by_id rest
       else pop_first (is_referenced_by A) refs) ->
  is_referenced_by A r = false /\ resolves is_referenced_by rest r.
Proof.
  intros Hown Hrefs. case_decide.
  - intros (f & -> & Hf)%list_elem_of_fmap.
    destruct (Hown f Hf) as (_ & Hf_own & HA). split; [done|]. by exists f.
  - by apply popped_resolves.
Qed.

Lemma sort_refs_pop_sort (l : option (list AttributeSort)) :
  sort_refs (pop_sort is_referenced_by A l)
  = pop_first (is_referenced_by A) (sort_refs l).
Proof.
  unfold sort_refs, pop_sort. destruct l as [[|x l]|]; try done.
  cbn [default]. by rewrite pop_first_map.
Qed.

Lemma pop_sort_None (l : option (list AttributeSort)) :
  pop_sort is_referenced_by A l = None <-> l = None.
Proof. by destruct l as [[|x l]|]. Qed.

(** The cascade of [remove_form] once the key form is settled: the form
    [A] leaves the forms, the first entry that points to it leaves each
    display and sort list, and one update is submitted. *)
Lemma remove_form_cascade (w : World) (fid : string)
    (pre post : list AttributeForm)
    (d : AttributeDisplays) (s : AttributeSorts)
    (new_key_form : option FormReference) (kf : FormReference) :
  forms (self w) = pre ++ A :: post ->
  form_id A = Some fid ->
  (forall f, f ∈ pre ++ post -> form_id f <> Some fid) ->
  pre ++ post <> [] ->
  (if is_referenced_by A (key_form (self w))
   then validate_key_form is_referenced_by
          (Some (default (key_form (self w)) new_key_form)) (pre ++ post)
          (Some delete_key_form_msg)
   else Ok (default (key_form (self w)) new_key_form)) = Ok kf ->
  displays (self w) = Some d -> sorts (self w) = Some s ->
  own_references is_referenced_by A (pre ++ post) ->
  in_order is_referenced_by A (pre ++ post) (report_displays d) ->
  in_order is_referenced_by A (pre ++ post) (browse_displays d) ->
  in_order is_referenced_by A (pre ++ post) (sort_refs (report_sorts s)) ->
  in_order is_referenced_by A (pre ++ post) (sort_refs (browse_sorts s)) ->
  exists w' d' s' p,
    remove_form is_referenced_by fid new_key_form w = (Ok tt, w')
    /\ events w' = events w ++ [AlterProperties p]
    /\ p_key_form p = Some kf /\ p_forms p = Some (pre ++ post)
    /\ p_displays p = Some d'
    /\ key_form (self w') = kf
    /\ forms (self w') = pre ++ post /\ (A ∉ forms (self w'))
    /\ displays (self w') = Some d' /\ sorts (self w') = Some s'
    /\ (forall r,
          r ∈ report_displays d' ++ browse_displays d'
              ++ sort_refs (report_sorts s') ++ sort_refs (browse_sorts s') ->
          is_referenced_by A r = false
          /\ resolves is_referenced_by (pre ++ post) r).
Proof.
  intros Hforms HA Hothers Hne Hkf Hd Hs Hown Hrd Hbd Hrs Hbs.
  set (dpop := {| report_displays :=
                    pop_first (is_referenced_by A) (report_displays d);
                  browse_displays :=
                    pop_first (is_referenced_by A) (browse_displays d) |}).
  set (spop := {| report_sorts := pop_sort is_referenced_by A (report_sorts s);
                  browse_sorts := pop_sort is_referenced_by A (browse_sorts s) |}).
  assert (Hids : all_identified (pre ++ post)).
  { apply Forall_forall. intros f Hf. by apply Hown. }
  assert (Hdisp : forall r,
             r ∈ report_displays (repopulated (pre ++ post) dpop)
                 ++ browse_displays (repopulated (pre ++ post) dpop) ->
             is_referenced_by A r = false
             /\ resolves is_referenced_by (pre ++ post) r).
  { intros r [Hr|Hr]%elem_of_app; revert Hr; cbn [repopulated report_displays
      browse_displays dpop]; by apply repopulated_resolves. }
  assert (Hsort : forall r,
             r ∈ sort_refs (report_sorts spop) ++ sort_refs (browse_sorts spop) ->
             is_referenced_by A r = false
             /\ resolves is_referenced_by (pre ++ post) r).
  { intros r [Hr|Hr]%elem_of_app; revert Hr; cbn [spop report_sorts browse_sorts];
      rewrite sort_refs_pop_sort; by apply popped_resolves. }
  assert (Hvd : _remove_form_from_displays is_referenced_by A (pre ++ post)
                  (Some d)
                = Ok (repopulated (pre ++ post) dpop)).
  { unfold _remove_form_from_displays. fold dpop.
    apply validate_displays_accepts; [done|]. intros r Hr. by apply Hdisp. }
  assert (Hvs : _remove_form_from_sorts is_referenced_by A (pre ++ post)
                  (Some s)
                = Ok (if decide (report_sorts s = None /\ browse_sorts s = None)
                      then None else Some spop)).
  { unfold _remove_form_from_sorts. fold spop. case_decide as Hnone.
    - apply validate_sorts_unset; simpl; apply pop_sort_None; tauto.
    - apply validate_sorts_accepts.
      + simpl. rewrite !pop_sort_None.
        destruct (report_sorts s), (browse_sorts s); auto.
      + intros r Hr. by apply Hsort. }
  assert (HAB : A ∉ pre ++ post).
  { intros Hin. by apply (Hothers A Hin). }
  assert (Hpre : forall f, f ∈ pre -> form_id f <> Some fid).
  { intros f Hf. apply Hothers, elem_of_app. by left. }
  assert (Hpost : forall f, f ∈ post -> form_id f <> Some fid).
  { intros f Hf. apply Hothers, elem_of_app. by right. }
  assert (Hlen : length (pre ++ post) <> 0).
  { intros Hzero. by apply Hne, nil_length_inv. }
  unfold remove_form, bind, get_self, raise, lift, ret, _alter_properties.
  rewrite scan_forms_spec, Hforms, !filter_app.
  rewrite filter_cons_True, filter_cons_False by auto.
  rewrite !(filter_none (fun f => form_id f = Some fid)) by done.
  rewrite !(filter_all (fun f => form_id f <> Some fid)) by done.
  simpl.
  destruct (decide (length (pre ++ post) = 0)) as [?|_]; [done|].
  rewrite Hd, Hs, Hvd, Hvs.
  destruct (is_referenced_by A (key_form (self w)));
    [rewrite Hkf|injection Hkf as Hkf; rewrite Hkf].
  all: case_decide as Hnone.
  1, 3: eexists _, (repopulated (pre ++ post) dpop), s, _.
  3, 4: eexists _, (repopulated (pre ++ post) dpop), spop, _.
  all: (split; [reflexivity|]); simpl; rewrite ?Hs; split_and!; try done.
  1, 2: intros r Hr; apply Hdisp;
    destruct Hnone as [Hr0 Hb0]; rewrite Hr0, Hb0 in Hr;
    by rewrite !app_nil_r in Hr.
  all: intros r Hr; rewrite app_assoc in Hr;
    apply elem_of_app in Hr as [Hr|Hr]; [by apply Hdisp|by apply Hsort].
Qed.

End RemoveKeyForm.

(** ** The validators and [remove_form] on concrete attributes *)

(** Membership in a literal list, one element at a time. *)
Ltac each_element H :=
  repeat (apply elem_of_cons in H as [->|H]);
  [..|by apply elem_of_nil in H].

(** C1. A form without name is the single form of the list: no reference
    is returned, whether the supplied key form points to that form or is
    missing. *)
Lemma validate_key_form_unnamed_form_counterexample :
  is_referenced_by_spec form_unnamed (by_id form_unnamed) = true
  /\ validate_key_form is_referenced_by_spec (Some (by_id form_unnamed))
       [form_unnamed] None
     = Raise (AttributeError no_id_or_name_msg)
  /\ validate_key_form is_referenced_by_spec None [form_unnamed] None
     = Raise (AttributeError no_id_or_name_msg).
Proof. split_and!; reflexivity. Qed.

Lemma validate_key_form_cases_witness :
  validate_key_form is_referenced_by_spec None [formA] None = Ok (by_name formA)
  /\ validate_key_form is_referenced_by_spec None [form_unnamed] None
     = Raise (AttributeError no_id_or_name_msg)
  /\ validate_key_form is_referenced_by_spec (Some (by_id formB))
       [formA; formB] None = Ok (by_id formB)
  /\ exists msg,
       validate_key_form is_referenced_by_spec (Some (by_id formC))
         [formA; formB] None = Raise (AttributeError msg).
Proof.
  destruct (validate_key_form_cases is_referenced_by_spec)
    as (_ & Hnamed & Hunnamed & Hsome & Hnone).
  split_and!.
  - apply Hnamed. discriminate.
  - apply Hunnamed. reflexivity.
  - apply Hsome; [simpl; lia|]. exists formB. split; [|reflexivity].
    right. by left.
  - apply Hnone; [simpl; lia|]. intros kf [= <-] (f & Hf & Href).
    each_element Hf; vm_compute in Href; discriminate.
Defined.

(** C2. A form that was built locally has no id: with such a form in the
    list, absent displays and displays with an empty list are not
    populated, the validation raises. *)
Lemma validate_displays_local_form_counterexample :
  [formA; form_local] <> []
  /\ validate_displays is_referenced_by_spec None [formA; form_local]
     = Raise (AttributeError no_id_or_name_msg)
  /\ report_displays browse_only = []
  /\ validate_displays is_referenced_by_spec (Some browse_only)
       [formA; form_local]
     = Raise (AttributeError no_id_or_name_msg).
Proof. split_and!; try reflexivity. discriminate. Qed.

Lemma validate_displays_cases_witness :
  validate_displays is_referenced_by_spec None [formA; formB]
  = Ok {| report_displays := [by_id formA; by_id formB];
          browse_displays := [by_id formA; by_id formB] |}
  /\ validate_displays is_referenced_by_spec None [formA; form_local]
     = Raise (AttributeError no_id_or_name_msg)
  /\ validate_displays is_referenced_by_spec (Some browse_only) [formA; formB]
     = Ok {| report_displays := [by_id formA; by_id formB];
             browse_displays := [by_id formA] |}
  /\ validate_displays is_referenced_by_spec (Some browse_only) [formB]
     = Raise (AttributeError displays_error_msg)
  /\ validate_displays is_referenced_by_spec (Some browse_only)
       [formA; form_local]
     = Raise (AttributeError no_id_or_name_msg).
Proof.
  split_and!.
  - apply (proj1 (validate_displays_cases is_referenced_by_spec
                    [formA; formB])).
    by repeat constructor.
  - apply (proj1 (proj2 (validate_displays_cases is_referenced_by_spec
                           [formA; form_local]))).
    intros Hids. apply Forall_cons in Hids as [_ Hids].
    apply Forall_cons in Hids as [Hlocal _]. by apply Hlocal.
  - apply (proj1 (proj2 (proj2 (proj2 (validate_displays_cases
                                         is_referenced_by_spec
                                         [formA; formB])))) browse_only).
    + intros _. by repeat constructor.
    + intros ref Href. simpl in Href.
      each_element Href;
        [exists formA; split; [by left|reflexivity]
        |exists formB; split; [right; by left|reflexivity]
        |exists formA; split; [by left|reflexivity]].
  - apply (proj1 (proj2 (proj2 (proj2 (proj2 (validate_displays_cases
                                                is_referenced_by_spec
                                                [formB]))))) browse_only).
    + intros _. by repeat constructor.
    + exists (by_id formA). split; [simpl; right; by left|].
      intros (f & Hf & Href). each_element Hf. vm_compute in Href. discriminate.
  - apply (proj2 (proj2 (proj2 (proj2 (proj2 (validate_displays_cases
                                                is_referenced_by_spec
                                                [formA; form_local])))))
             browse_only).
    + by left.
    + intros Hids. apply Forall_cons in Hids as [_ Hids].
      apply Forall_cons in Hids as [Hlocal _]. by apply Hlocal.
Defined.

(** C7. With both sub-lists empty (rather than unset) the validator hands
    the sorts back instead of the no-sorts value. *)
Lemma validate_sorts_empty_lists_counterexample :
  default [] (report_sorts empty_sorts) = []
  /\ default [] (browse_sorts empty_sorts) = []
  /\ validate_sorts is_referenced_by_spec (Some empty_sorts) [formA; formB]
     = Ok (Some empty_sorts)
  /\ validate_sorts is_referenced_by_spec (Some empty_sorts) [formA; formB]
     <> Ok None.
Proof. split_and!; [reflexivity..|discriminate]. Qed.

Lemma validate_sorts_cases_witness :
  validate_sorts is_referenced_by_spec (Some empty_sorts) [formA; formB]
  = Ok (Some empty_sorts)
  /\ validate_sorts is_referenced_by_spec (sorts attrAB) [formB]
     = Raise (AttributeError sorts_error_msg).
Proof.
  split.
  - apply (proj1 (proj2 (proj2 (validate_sorts_cases is_referenced_by_spec
                                  [formA; formB]))) empty_sorts).
    + left. discriminate.
    + intros ref Href. simpl in Href. by apply elem_of_nil in Href.
  - apply (proj2 (proj2 (proj2 (validate_sorts_cases is_referenced_by_spec
                                  [formB])))).
    + left. discriminate.
    + exists (by_id formA). split; [simpl; by left|].
      intros (f & Hf & Href). each_element Hf. vm_compute in Href. discriminate.
Defined.

Lemma remove_form_rejects_witness :
  (exists msg, remove_form is_referenced_by_spec "ZZ" None w0
               = (Raise (ValueError msg), w0))
  /\ remove_form is_referenced_by_spec "A1" (Some (by_id formB)) wA
     = (Raise (ValueError "You can not delete the last attribute form"), wA).
Proof.
  split.
  - apply (proj1 (remove_form_rejects is_referenced_by_spec w0 "ZZ")).
    intros f Hf. simpl in Hf. each_element Hf; discriminate.
  - apply (proj2 (remove_form_rejects is_referenced_by_spec wA "A1") formA);
      reflexivity.
Defined.

Lemma remove_form_without_sorts_witness :
  exists e, remove_form is_referenced_by_spec "A1" (Some (by_id formB))
              w_no_sorts = (Raise e, w_no_sorts).
Proof.
  apply (remove_form_without_sorts is_referenced_by_spec w_no_sorts "A1").
  reflexivity.
Defined.

(** The exception of that call is the failed read of [sorts.report_sorts]:
    the form exists, another form is left, the replacement is valid and the
    displays step went through. *)
Example no_sorts_exception_is_attribute_error :
  remove_form is_referenced_by_spec "A1" (Some (by_id formB)) w_no_sorts
  = (Raise (none_has_no_attribute "report_sorts"), w_no_sorts).
Proof. reflexivity. Qed.

(** C3. [attrAB] has the forms [formA] and [formB] and its key form is
    [formA]; removing [formA] without naming a new key form goes through. *)
Lemma remove_key_form_without_replacement_counterexample :
  forms (self w0) = [formA; formB]
  /\ is_referenced_by_spec formA (key_form (self w0)) = true
  /\ is_raise (fst (remove_form is_referenced_by_spec "A1" None w0)) = false
  /\ key_form (self (snd (remove_form is_referenced_by_spec "A1" None w0)))
     = by_name formB.
Proof. split_and!; reflexivity. Qed.

Lemma single_reference_literal (refs : list FormReference) :
  forallb (fun r => is_referenced_by_spec formA r || is_referenced_by_spec formB r)
          refs = true ->
  length (filter (fun r => is_referenced_by_spec formA r = true) refs) <= 1 ->
  single_reference is_referenced_by_spec formA formB refs.
Proof.
  intros Hall Hone. split; [|done]. intros r Hr.
  rewrite forallb_forall in Hall. apply orb_true_iff, Hall.
  by apply list_elem_of_In.
Qed.

(** With two or more forms left, the key form has to be replaced by a
    reference to one of them. *)
Lemma remove_key_form_needs_replacement
    (is_referenced_by : AttributeForm -> FormReference -> bool)
    (w : World) (fid : string) (A : AttributeForm)
    (pre post : list AttributeForm) (new_key_form : option FormReference) :
  forms (self w) = pre ++ A :: post ->
  form_id A = Some fid ->
  (forall f, f ∈ pre ++ post -> form_id f <> Some fid) ->
  2 <= length (pre ++ post) ->
  is_referenced_by A (key_form (self w)) = true ->
  ~ resolves is_referenced_by (pre ++ post)
      (default (key_form (self w)) new_key_form) ->
  remove_form is_referenced_by fid new_key_form w
  = (Raise (AttributeError delete_key_form_msg), w).
Proof.
  intros Hforms HA Hothers Hlen Hkey Hdangling.
  assert (Hpre : forall f, f ∈ pre -> form_id f <> Some fid).
  { intros f Hf. apply Hothers, elem_of_app. by left. }
  assert (Hpost : forall f, f ∈ post -> form_id f <> Some fid).
  { intros f Hf. apply Hothers, elem_of_app. by right. }
  unfold remove_form, bind, get_self, raise, lift, ret.
  rewrite scan_forms_spec, Hforms, !filter_app.
  rewrite filter_cons_True, filter_cons_False by auto.
  rewrite !(filter_none (fun f => form_id f = Some fid)) by done.
  rewrite !(filter_all (fun f => form_id f <> Some fid)) by done.
  simpl. rewrite Hkey.
  destruct (decide (length (pre ++ post) = 0)) as [Hzero|_]; [lia|].
  assert (Hany : any_referenced is_referenced_by (pre ++ post)
                   (default (key_form (self w)) new_key_form) = false).
  { apply not_true_false. by rewrite any_referenced_resolves. }
  unfold validate_key_form. rewrite Hany.
  destruct (pre ++ post) as [|f1 [|f2 l]]; simpl in Hlen; try lia.
  reflexivity.
Qed.

Lemma in_order_literal (A : AttributeForm) (rest : list AttributeForm)
    (refs : list FormReference) :
  forallb (fun r => is_referenced_by_spec A r
                    || any_referenced is_referenced_by_spec rest r)
          refs = true ->
  length (filter (fun r => is_referenced_by_spec A r = true) refs) <= 1 ->
  in_order is_referenced_by_spec A rest refs.
Proof.
  intros Hall Hone. split; [|done]. intros r Hr.
  rewrite forallb_forall in Hall.
  rewrite <- any_referenced_resolves. apply orb_true_iff, Hall.
  by apply list_elem_of_In.
Qed.

Lemma resolves_singleton
    (is_referenced_by : AttributeForm -> FormReference -> bool)
    (B : AttributeForm) (r : FormReference) :
  resolves is_referenced_by [B] r <-> is_referenced_by B r = true.
Proof.
  split.
  - by intros (f & ->%list_elem_of_singleton & Hf).
  - intros Hr. exists B. split; [by left|done].
Qed.

Lemma single_reference_in_order
    (is_referenced_by : AttributeForm -> FormReference -> bool)
    (A B : AttributeForm) (refs : list FormReference) :
  single_reference is_referenced_by A B refs ->
  in_order is_referenced_by A [B] refs.
Proof.
  intros [Hboth Hone]. split; [|done]. intros r Hr.
  rewrite resolves_singleton. by apply Hboth.
Qed.

(** C3, as the code has it.  Let the key form of an attribute point to its
    form [A], let the displays and sorts of the attribute be present, and
    let their lists be in order: every entry points to [A] or to a form
    that is left, and at most one entry of each list points to [A].

    When the attribute has the forms [A] and [B], of different ids, and [B]
    has a name and an id by which it, and not [A], is referenced,
    [remove_form] with the id of [A] succeeds for every new key form, a
    missing one included: one update is submitted, the key form becomes the
    reference by name to [B], the forms are [B] alone, and every display
    and sort entry left points to [B] and not to [A].

    When two or more forms are left, each with an id by which it, and not
    [A], is referenced: if the new key form (the old one when none is
    given) points to a form that is left, [remove_form] succeeds; one
    update is submitted, the key form becomes that reference, [A] is no
    longer among the forms, and every display and sort entry left points to
    a form that is left and not to [A].  If it points to none of the forms
    that are left, [remove_form] fails and submits nothing; this part needs
    neither the displays nor the sorts. *)
Theorem remove_key_form_cases
    (is_referenced_by : AttributeForm -> FormReference -> bool)
    (w : World) (fid : string) (A : AttributeForm)
    (new_key_form : option FormReference) :
  form_id A = Some fid ->
  is_referenced_by A (key_form (self w)) = true ->
  (forall B d s,
      forms (self w) = [A; B] -> form_id B <> Some fid ->
      form_name B <> None -> identified B ->
      is_referenced_by B (by_id B) = true ->
      is_referenced_by A (by_id B) = false ->
      displays (self w) = Some d -> sorts (self w) = Some s ->
      single_reference is_referenced_by A B (report_displays d) ->
      single_reference is_referenced_by A B (browse_displays d) ->
      single_reference is_referenced_by A B (sort_refs (report_sorts s)) ->
      single_reference is_referenced_by A B (sort_refs (browse_sorts s)) ->
      exists w' d' s' p,
        remove_form is_referenced_by fid new_key_form w = (Ok tt, w')
        /\ events w' = events w ++ [AlterProperties p]
        /\ p_key_form p = Some (by_name B) /\ p_forms p = Some [B]
        /\ p_displays p = Some d'
        /\ key_form (self w') = by_name B
        /\ forms (self w') = [B] /\ (A ∉ forms (self w'))
        /\ displays (self w') = Some d' /\ sorts (self w') = Some s'
        /\ (forall r,
              r ∈ report_displays d' ++ browse_displays d'
                  ++ sort_refs (report_sorts s') ++ sort_refs (browse_sorts s') ->
              is_referenced_by A r = false /\ is_referenced_by B r = true))
  /\ (forall pre post d s,
         forms (self w) = pre ++ A :: post ->
         (forall f, f ∈ pre ++ post -> form_id f <> Some fid) ->
         2 <= length (pre ++ post) ->
         resolves is_referenced_by (pre ++ post)
           (default (key_form (self w)) new_key_form) ->
         own_references is_referenced_by A (pre ++ post) ->
         displays (self w) = Some d -> sorts (self w) = Some s ->
         in_order is_referenced_by A (pre ++ post) (report_displays d) ->
         in_order is_referenced_by A (pre ++ post) (browse_displays d) ->
         in_order is_referenced_by A (pre ++ post) (sort_refs (report_sorts s)) ->
         in_order is_referenced_by A (pre ++ post) (sort_refs (browse_sorts s)) ->
         exists w' d' s' p,
           remove_form is_referenced_by fid new_key_form w = (Ok tt, w')
           /\ events w' = events w ++ [AlterProperties p]
           /\ p_key_form p = Some (default (key_form (self w)) new_key_form)
           /\ p_forms p = Some (pre ++ post)
           /\ p_displays p = Some d'
           /\ key_form (self w') = default (key_form (self w)) new_key_form
           /\ forms (self w') = pre ++ post /\ (A ∉ forms (self w'))
           /\ displays (self w') = Some d' /\ sorts (self w') = Some s'
           /\ (forall r,
                 r ∈ report_displays d' ++ browse_displays d'
                     ++ sort_refs (report_sorts s')
                     ++ sort_refs (browse_sorts s') ->
                 is_referenced_by A r = false
                 /\ resolves is_referenced_by (pre ++ post) r))
  /\ (forall pre post,
         forms (self w) = pre ++ A :: post ->
         (forall f, f ∈ pre ++ post -> form_id f <> Some fid) ->
         2 <= length (pre ++ post) ->
         ~ resolves is_referenced_by (pre ++ post)
             (default (key_form (self w)) new_key_form) ->
         remove_form is_referenced_by fid new_key_form w
         = (Raise (AttributeError delete_key_form_msg), w)).
Proof.
  intros HA Hkey. split_and!.
  - intros B d s Hforms HB Hname Hid HBB HAB Hd Hs Hrd Hbd Hrs Hbs.
    destruct (remove_form_cascade is_referenced_by A w fid [] [B] d s
                new_key_form (by_name B))
      as (w' & d' & s' & p & Hrun & Hev & Hpk & Hpf & Hpd & Hk & Hf & HA'
          & Hd' & Hs' & Hrefs);
      try done; try by apply single_reference_in_order.
    + by intros f ->%list_elem_of_singleton.
    + rewrite Hkey. simpl. by apply ref_by_name_named.
    + by intros f ->%list_elem_of_singleton.
    + exists w', d', s', p. split_and!; try done.
      intros r Hr. destruct (Hrefs r Hr) as [HrA HrB].
      split; [done|]. by apply resolves_singleton in HrB.
  - intros pre post d s Hforms Hothers Hlen Hres Hown Hd Hs Hrd Hbd Hrs Hbs.
    apply (remove_form_cascade is_referenced_by A w fid pre post d s);
      try done.
    + intros Hnil. rewrite Hnil in Hlen. simpl in Hlen. lia.
    + rewrite Hkey. apply any_referenced_resolves in Hres.
      unfold validate_key_form. rewrite Hres.
      destruct (pre ++ post) as [|f1 [|f2 l]]; simpl in Hlen; try lia.
      reflexivity.
  - intros pre post Hforms Hothers Hlen Hdangling.
    by apply (remove_key_form_needs_replacement is_referenced_by w fid A
                pre post).
Qed.

Lemma remove_key_form_cases_witness :
  (exists w',
      remove_form is_referenced_by_spec "A1" (Some (by_id formB)) w0
      = (Ok tt, w')
      /\ key_form (self w') = by_name formB
      /\ forms (self w') = [formB])
  /\ (exists w',
         remove_form is_referenced_by_spec "A1" (Some (by_id formB)) w_abc
         = (Ok tt, w')
         /\ key_form (self w') = by_id formB
         /\ forms (self w') = [formB; formC])
  /\ remove_form is_referenced_by_spec "A1" None w_abc
     = (Raise (AttributeError delete_key_form_msg), w_abc).
Proof.
  split_and!.
  - destruct (proj1 (remove_key_form_cases is_referenced_by_spec w0 "A1" formA
                       (Some (by_id formB)) eq_refl eq_refl)
                formB
                {| report_displays := [by_id formA; by_id formB];
                   browse_displays := [by_id formA] |}
                {| report_sorts :=
                     Some [ {| form := by_id formA; ascending := true |} ];
                   browse_sorts := None |})
      as (w' & d' & s' & p & Hrun & _ & _ & _ & _ & Hkey & Hforms & _);
      try reflexivity; try discriminate;
      try (apply single_reference_literal; [reflexivity|vm_compute; lia]).
    exists w'. by split_and!.
  - destruct (proj1 (proj2 (remove_key_form_cases is_referenced_by_spec w_abc
                              "A1" formA (Some (by_id formB))
                              eq_refl eq_refl))
                [] [formB; formC]
                {| report_displays := [by_id formA; by_id formB];
                   browse_displays := [by_id formA] |}
                {| report_sorts :=
                     Some [ {| form := by_id formA; ascending := true |} ];
                   browse_sorts := None |})
      as (w' & d' & s' & p & Hrun & _ & _ & _ & _ & Hkey & Hforms & _);
      try reflexivity;
      try (apply in_order_literal; [reflexivity|vm_compute; lia]).
    + intros f Hf. simpl in Hf. each_element Hf; discriminate.
    + exists formB. split; [by left|reflexivity].
    + intros f Hf. simpl in Hf.
      each_element Hf; split_and!; try reflexivity; discriminate.
    + exists w'. by split_and!.
  - apply (proj2 (proj2 (remove_key_form_cases is_referenced_by_spec w_abc
                           "A1" formA None eq_refl eq_refl))
             [] [formB; formC]).
    + reflexivity.
    + intros f Hf. simpl in Hf. each_element Hf; discriminate.
    + simpl. lia.
    + intros (f & Hf & Href). simpl in Hf.
      each_element Hf; vm_compute in Href; discriminate.
Defined.

(** ** Relationships *)

Section FindFirst.

Context {A : Type} (p : A -> bool).

Lemma find_first_split (l : list A) (x : A) :
  List.find p l = Some x ->
  exists pre post,
    l = pre ++ x :: post /\ p x = true /\ forall y, y ∈ pre -> p y = false.
Proof.
  induction l as [|a l IH]; simpl; [done|].
  destruct (p a) eqn:Ha.
  - intros [= ->]. exists [], l. split_and!; [done..|].
    intros y Hy. by apply elem_of_nil in Hy.
  - intros (pre & post & -> & Hx & Hpre)%IH. exists (a :: pre), post.
    split_and!; [done..|]. intros y [->|Hy]%elem_of_cons; auto.
Qed.

Lemma find_first_at (pre post : list A) (x : A) :
  p x = true -> (forall y, y ∈ pre -> p y = false) ->
  List.find p (pre ++ x :: post) = Some x.
Proof.
  intros Hx. induction pre as [|a pre IH]; intros Hpre; simpl.
  - by rewrite Hx.
  - rewrite (Hpre a) by by left. apply IH. intros y Hy. apply Hpre. by right.
Qed.

Lemma find_first_none (l : list A) :
  (forall y, y ∈ l -> p y = false) -> List.find p l = None.
Proof.
  induction l as [|a l IH]; intros Hl; simpl; [done|].
  rewrite (Hl a) by by left. apply IH. intros y Hy. apply Hl. by right.
Qed.

Lemma find_first_some (l : list A) (x : A) :
  x ∈ l -> p x = true -> exists y, List.find p l = Some y.
Proof.
  intros Hin Hx. destruct (List.find p l) eqn:Hfind; [by eexists|].
  apply find_none with (x := x) in Hfind; [congruence|].
  by apply list_elem_of_In.
Qed.

End FindFirst.

(** Filtering out the first match keeps what precedes it. *)
Lemma filter_first_match (p : Relationship -> bool)
    (pre post : list Relationship) (rel : Relationship) :
  p rel = true -> (forall y, y ∈ pre -> p y = false) ->
  filter (fun r => r <> rel) (pre ++ rel :: post)
  = pre ++ filter (fun r => r <> rel) post.
Proof.
  intros Hrel Hpre. rewrite filter_app, filter_cons_False by auto.
  f_equal. induction pre as [|a pre IH]; [done|].
  rewrite filter_cons_True.
  - f_equal. apply IH. intros y Hy. apply Hpre. by right.
  - intros ->. rewrite (Hpre rel) in Hrel by by left. done.
Qed.

Lemma _update_relationships_add (rel : Relationship) (w : World) :
  _update_relationships rel true w
  = (Ok tt, resubmitted w (relationships (self w) ++ [rel])).
Proof. reflexivity. Qed.

Lemma _update_relationships_remove (rel : Relationship) (w : World) :
  _update_relationships rel false w
  = (Ok tt, resubmitted w (filter (fun r => r <> rel) (relationships (self w)))).
Proof. reflexivity. Qed.

Lemma has_child_new rtype table p c jc :
  has_child c (new_Relationship rtype table p (Some c) jc) = true.
Proof. unfold has_child; simpl. by apply bool_decide_eq_true. Qed.

Lemma has_joint_child_new rtype table p jc :
  has_joint_child (default [] jc) (new_Relationship rtype table p None jc) = true.
Proof. unfold has_joint_child; simpl. by apply bool_decide_eq_true. Qed.

Lemma has_parent_new rtype table p c jc :
  has_parent p (new_Relationship rtype table p c jc) = true.
Proof. unfold has_parent; simpl. by apply bool_decide_eq_true. Qed.

(** What a successful [add_child] leaves behind: a relationship with the
    given child, or with the given joint children. *)
Lemma add_child_post child joint_child rtype table (w w1 : World) :
  add_child child joint_child rtype table w = (Ok tt, w1) ->
  id (self w1) = id (self w)
  /\ exists rel,
       rel ∈ relationships (self w1)
       /\ match child with
          | Some c => has_child c rel = true
          | None => has_joint_child (default [] joint_child) rel = true
          end.
Proof.
  unfold add_child, bind, get_self, raise, exception_handler_warning, emit.
  destruct (_ || _); [done|].
  destruct child as [c|].
  - destruct (List.find _ _) as [rel|] eqn:Hfind.
    + intros [= <-]. split; [done|]. exists rel; simpl.
      apply find_some in Hfind as [Hin ?]. by apply list_elem_of_In in Hin.
    + rewrite _update_relationships_add. intros [= <-]. split; [done|].
      eexists. split; [simpl; apply elem_of_app; right; by left|].
      apply has_child_new.
  - destruct (List.find _ _) as [rel|] eqn:Hfind.
    + intros [= <-]. split; [done|]. exists rel; simpl.
      apply find_some in Hfind as [Hin ?]. by apply list_elem_of_In in Hin.
    + rewrite _update_relationships_add. intros [= <-]. split; [done|].
      eexists. split; [simpl; apply elem_of_app; right; by left|].
      apply has_joint_child_new.
Qed.

Lemma add_parent_post p rtype table (w w1 : World) :
  add_parent p rtype table w = (Ok tt, w1) ->
  exists rel, rel ∈ relationships (self w1) /\ has_parent p rel = true.
Proof.
  unfold add_parent, bind, get_self, exception_handler_warning, emit.
  destruct (List.find _ _) as [rel|] eqn:Hfind.
  - intros [= <-]. exists rel; simpl.
    apply find_some in Hfind as [Hin ?]. by apply list_elem_of_In in Hin.
  - rewrite _update_relationships_add. intros [= <-].
    eexists. split; [simpl; apply elem_of_app; right; by left|].
    apply has_parent_new.
Qed.

(** C5. A second [add_child] with the same child or the same joint
    children, and a second [add_parent] with a parent of the same object
    id, only warns: it returns normally, the entity, its relationships
    among it, is as the first call left it, and the log gains one warning
    and no update. *)
Theorem add_twice_warns (w w1 : World) :
  (forall child joint_child rtype table rtype' table',
      add_child child joint_child rtype table w = (Ok tt, w1) ->
      exists msg,
        add_child child joint_child rtype' table' w1 = (Ok tt, warned w1 msg))
  /\ (forall p p' rtype table rtype' table',
         object_id p' = object_id p ->
         add_parent p rtype table w = (Ok tt, w1) ->
         exists msg, add_parent p' rtype' table' w1 = (Ok tt, warned w1 msg)).
Proof.
  split.
  - intros child jc rtype table rtype' table' Hfirst.
    destruct (add_child_post _ _ _ _ _ _ Hfirst) as (_ & rel & Hin & Hrel).
    revert Hfirst.
    unfold add_child, bind, get_self, raise, exception_handler_warning, emit.
    destruct (_ || _); [done|]. intros _.
    destruct child as [c|].
    + destruct (find_first_some (has_child c) _ _ Hin Hrel) as [rel' ->].
      by eexists.
    + destruct (find_first_some (has_joint_child (default [] jc)) _ _ Hin Hrel)
        as [rel' ->].
      by eexists.
  - intros p p' rtype table rtype' table' Hid Hfirst.
    destruct (add_parent_post _ _ _ _ _ Hfirst) as (rel & Hin & Hrel).
    unfold add_parent, bind, get_self, exception_handler_warning, emit.
    assert (Hrel' : has_parent p' rel = true).
    { unfold has_parent in *. by rewrite Hid. }
    destruct (find_first_some (has_parent p') _ _ Hin Hrel') as [rel' ->].
    by eexists.
Qed.

Lemma add_twice_warns_witness :
  (exists msg,
      add_child (Some attr_city) None ONE_TO_MANY None w_city
      = (Ok tt, warned w_city msg))
  /\ (exists msg,
         add_parent attr_region ONE_TO_MANY None w_region
         = (Ok tt, warned w_region msg)).
Proof.
  split.
  - apply (proj1 (add_twice_warns w0 w_city)
             (Some attr_city) None ONE_TO_MANY None ONE_TO_MANY None).
    reflexivity.
  - apply (proj2 (add_twice_warns w0 w_region)
             attr_region attr_region ONE_TO_MANY None ONE_TO_MANY None);
      reflexivity.
Defined.

Lemma has_child_true c rel : has_child c rel = true <-> target rel = Child c.
Proof.
  unfold has_child. destruct (target rel); [|done].
  rewrite bool_decide_eq_true. split; congruence.
Qed.

Lemma has_joint_child_true l rel :
  has_joint_child l rel = true <-> target rel = JointChild l.
Proof.
  unfold has_joint_child. destruct (target rel); [done|].
  rewrite bool_decide_eq_true. split; congruence.
Qed.

Lemma has_parent_true p rel :
  has_parent p rel = true <-> object_id (parent rel) = object_id p.
Proof. unfold has_parent. by rewrite bool_decide_eq_true. Qed.

(** The shared step of the removals: with a first match the collection is
    resubmitted without it and without its later copies. *)
Lemma remove_at_first_match (p : Relationship -> bool) (w : World)
    (pre post : list Relationship) (rel : Relationship) (warning : M unit) :
  relationships (self w) = pre ++ rel :: post ->
  p rel = true -> (forall x, x ∈ pre -> p x = false) ->
  match List.find p (relationships (self w)) with
  | Some rel => _update_relationships rel false
  | None => warning
  end w
  = (Ok tt, resubmitted w (pre ++ filter (fun r => r <> rel) post)).
Proof.
  intros Hrels Hrel Hpre.
  assert (Hfind : List.find p (relationships (self w)) = Some rel)
    by (rewrite Hrels; by apply find_first_at).
  rewrite Hfind, _update_relationships_remove, Hrels.
  by rewrite (filter_first_match p).
Qed.

(** C6, as the code has it.  [remove_child] wants exactly one of [child]
    and a non-empty [joint_child] and raises otherwise.  [remove_child] and
    [remove_parent] look for the first relationship with the given child,
    with the given list of joint children (same references in the same
    order), or with a parent of the given object id when that id is not the
    attribute's own; they resubmit the collection without that relationship
    and without the later relationships equal to it.  Without a match they
    warn, raise nothing and leave the collection as it was. *)
Theorem remove_relationship_cases (w : World) :
  (forall child joint_child,
      (is_Some child /\ truthy joint_child = true)
      \/ (child = None /\ truthy joint_child = false) ->
      remove_child child joint_child w
      = (Raise (ValueError either_child_msg), w))
  /\ (forall c joint_child pre rel post,
         truthy joint_child = false ->
         relationships (self w) = pre ++ rel :: post ->
         target rel = Child c ->
         (forall x, x ∈ pre -> target x <> Child c) ->
         remove_child (Some c) joint_child w
         = (Ok tt, resubmitted w (pre ++ filter (fun r => r <> rel) post)))
  /\ (forall c joint_child,
         truthy joint_child = false ->
         (forall x, x ∈ relationships (self w) -> target x <> Child c) ->
         exists msg, remove_child (Some c) joint_child w = (Ok tt, warned w msg))
  /\ (forall l pre rel post,
         l <> [] ->
         relationships (self w) = pre ++ rel :: post ->
         target rel = JointChild l ->
         (forall x, x ∈ pre -> target x <> JointChild l) ->
         remove_child None (Some l) w
         = (Ok tt, resubmitted w (pre ++ filter (fun r => r <> rel) post)))
  /\ (forall l,
         l <> [] ->
         (forall x, x ∈ relationships (self w) -> target x <> JointChild l) ->
         exists msg, remove_child None (Some l) w = (Ok tt, warned w msg))
  /\ (forall p pre rel post,
         object_id p <> id (self w) ->
         relationships (self w) = pre ++ rel :: post ->
         object_id (parent rel) = object_id p ->
         (forall x, x ∈ pre -> object_id (parent x) <> object_id p) ->
         remove_parent p w
         = (Ok tt, resubmitted w (pre ++ filter (fun r => r <> rel) post)))
  /\ (forall p,
         object_id p = id (self w)
         \/ (forall x, x ∈ relationships (self w) ->
                       object_id (parent x) <> object_id p) ->
         exists msg, remove_parent p w = (Ok tt, warned w msg)).
Proof.
  split_and!.
  - intros child jc [[[c ->] Hjc]|[-> Hjc]];
      unfold remove_child, bind, get_self, raise; by rewrite Hjc.
  - intros c jc pre rel post Hjc Hrels Hrel Hpre.
    unfold remove_child, bind, get_self. rewrite Hjc. simpl.
    apply (remove_at_first_match (has_child c)); [done|by apply has_child_true|].
    intros x Hx. apply not_true_false. rewrite has_child_true. by apply Hpre.
  - intros c jc Hjc Hnone.
    unfold remove_child, bind, get_self. rewrite Hjc. simpl.
    rewrite (find_first_none (has_child c)); [by eexists|].
    intros x Hx. apply not_true_false. rewrite has_child_true. by apply Hnone.
  - intros l pre rel post Hl Hrels Hrel Hpre.
    unfold remove_child, bind, get_self.
    destruct l as [|a l]; [done|]. simpl.
    apply (remove_at_first_match (has_joint_child (a :: l)));
      [done|by apply has_joint_child_true|].
    intros x Hx. apply not_true_false. rewrite has_joint_child_true.
    by apply Hpre.
  - intros l Hl Hnone.
    unfold remove_child, bind, get_self.
    destruct l as [|a l]; [done|]. simpl.
    rewrite (find_first_none (has_joint_child (a :: l))); [by eexists|].
    intros x Hx. apply not_true_false. rewrite has_joint_child_true.
    by apply Hnone.
  - intros p pre rel post Hp Hrels Hrel Hpre.
    unfold remove_parent, bind, get_self.
    apply (remove_at_first_match (is_foreign_parent (self w) p)); [done| |].
    + unfold is_foreign_parent. rewrite (proj2 (has_parent_true p rel) Hrel).
      by rewrite bool_decide_false.
    + intros x Hx. unfold is_foreign_parent.
      rewrite (not_true_false (has_parent p x)); [done|].
      rewrite has_parent_true. by apply Hpre.
  - intros p Hnone. unfold remove_parent, bind, get_self.
    rewrite (find_first_none (is_foreign_parent (self w) p)); [by eexists|].
    intros x Hx. unfold is_foreign_parent. destruct Hnone as [Hown|Hnone].
    + rewrite (bool_decide_true _ Hown). apply andb_false_r.
    + rewrite (not_true_false (has_parent p x)); [done|].
      rewrite has_parent_true. by apply Hnone.
Qed.

(** C6. The relationship of [attr_joint] has the joint children Region
    and City; asked to remove the joint children City and Region, the same
    set in another order, [remove_child] finds no match: it warns and the
    relationship stays. *)
Lemma remove_joint_child_order_counterexample :
  target rel_joint = JointChild [attr_region; attr_city]
  /\ (forall x, x ∈ [attr_city; attr_region] <-> x ∈ [attr_region; attr_city])
  /\ remove_child None (Some [attr_city; attr_region]) w_joint
     = (Ok tt,
        warned w_joint
          "[City, Region] is not a child/joint_child of the attribute 'ATTR' and will be omitted.")
  /\ relationships
       (self (snd (remove_child None (Some [attr_city; attr_region]) w_joint)))
     = [rel_joint].
Proof.
  split_and!; try reflexivity.
  intros x. rewrite !elem_of_cons. tauto.
Qed.

(** The later copies of the relationship found go with it. *)
Example remove_child_drops_copies :
  remove_child (Some attr_city) None w_twice = (Ok tt, resubmitted w_twice []).
Proof. reflexivity. Qed.

Lemma remove_relationship_cases_witness :
  remove_child None (Some [attr_region; attr_city]) w_joint
  = (Ok tt, resubmitted w_joint [])
  /\ (exists msg, remove_parent attr_region w_joint = (Ok tt, warned w_joint msg)).
Proof.
  destruct (remove_relationship_cases w_joint)
    as (_ & _ & _ & Hjoint & _ & _ & Hparent).
  split.
  - apply (Hjoint [attr_region; attr_city] [] rel_joint []);
      [discriminate|reflexivity|reflexivity|].
    intros x Hx. by apply elem_of_nil in Hx.
  - apply Hparent. right. intros x Hx. simpl in Hx.
    each_element Hx. discriminate.
Defined.

(** ** Batch update *)

Section Comprehension.

Context {A B : Type} (f : A -> result B).



End Comprehension.

Section BatchFacts.

Variable is_referenced_by : AttributeForm -> FormReference -> bool.
Variable is_sub_type : string -> bool.
Variable update_attributes :
  list UpdateAttributeDto -> option string -> list Response.




End BatchFacts.



(** ** Executing subscriptions *)

Section ManagerFacts.

Import SubscriptionManager.

Variable verbose : bool.
Variable fetch : string -> Subscription.

Lemma execute_loop_elem_of (l : list SubscriptionArg) (acc : list SubEvent)
    (e : SubEvent) :
  e ∈ fold_left (fun log arg => log ++ execute_one fetch arg) l acc
  <-> e ∈ acc \/ exists arg, arg ∈ l /\ e ∈ execute_one fetch arg.
Proof.
  revert acc. induction l as [|a l IH]; intros acc; simpl.
  - split; [by left|]. intros [?|(arg & Harg%elem_of_nil & _)]; done.
  - rewrite IH, elem_of_app. split.
    + intros [[?|?]|(arg & Harg & He)]; [by left| |].
      * right. exists a. split; [by left|done].
      * right. exists arg. split; [by right|done].
    + intros [?|(arg & [->|Harg]%elem_of_cons & He)]; [by left; left| |].
      * by left; right.
      * right. by exists arg.
Qed.

Lemma execute_elem_of (l : list SubscriptionArg) (e : SubEvent) :
  l <> [] ->
  e ∈ execute verbose fetch l
  <-> exists arg, arg ∈ l /\ e ∈ execute_one fetch arg.
Proof.
  intros Hl. unfold execute. rewrite bool_decide_false by done. simpl.
  rewrite execute_loop_elem_of. split; [|by right].
  intros [?%elem_of_nil|?]; done.
Qed.

(** C9. For every subscription passed to [execute], given as an object or
    by its id: when its delivery mode is none of EMAIL, FILE, HISTORY_LIST
    and FTP, a warning about it is issued and the events hold no execute
    call for it; when its mode is one of the four, it is executed. *)
Theorem execute_by_delivery_mode (subscriptions : list SubscriptionArg)
    (arg : SubscriptionArg) :
  arg ∈ subscriptions ->
  (delivery_mode (resolve fetch arg) ∉ ["EMAIL"; "FILE"; "HISTORY_LIST"; "FTP"] ->
   UserWarning (not_supported_msg (resolve fetch arg))
     ∈ execute verbose fetch subscriptions
   /\ (Execute (resolve fetch arg) ∉ execute verbose fetch subscriptions))
  /\ (delivery_mode (resolve fetch arg) ∈ ["EMAIL"; "FILE"; "HISTORY_LIST"; "FTP"] ->
      Execute (resolve fetch arg) ∈ execute verbose fetch subscriptions).
Proof.
  intros Harg.
  assert (Hl : subscriptions <> []).
  { intros ->. by apply elem_of_nil in Harg. }
  split; intros Hmode.
  - split.
    + apply execute_elem_of; [done|]. exists arg. split; [done|].
      unfold execute_one, supported. rewrite bool_decide_false by done.
      by left.
    + intros (arg' & _ & He)%execute_elem_of; [|done].
      unfold execute_one, supported in He. case_bool_decide as Hmode'.
      * apply list_elem_of_singleton in He. injection He as He.
        apply Hmode. by rewrite He.
      * apply list_elem_of_singleton in He. discriminate.
  - apply execute_elem_of; [done|]. exists arg. split; [done|].
    unfold execute_one, supported. rewrite bool_decide_true by done. by left.
Qed.

End ManagerFacts.

Lemma execute_by_delivery_mode_witness :
  SubscriptionManager.UserWarning
    (SubscriptionManager.not_supported_msg cache_subscription)
    ∈ SubscriptionManager.execute true fetch_subscription
        [SubscriptionManager.Object cache_subscription;
         SubscriptionManager.Id "S2"]
  /\ (SubscriptionManager.Execute cache_subscription
      ∉ SubscriptionManager.execute true fetch_subscription
          [SubscriptionManager.Object cache_subscription;
           SubscriptionManager.Id "S2"])
  /\ SubscriptionManager.Execute email_subscription
     ∈ SubscriptionManager.execute true fetch_subscription
         [SubscriptionManager.Object cache_subscription;
          SubscriptionManager.Id "S2"].
Proof.
  split; [|split].
  - apply (proj1 (execute_by_delivery_mode true fetch_subscription
                    [SubscriptionManager.Object cache_subscription;
                     SubscriptionManager.Id "S2"]
                    (SubscriptionManager.Object cache_subscription)
                    ltac:(by left))).
    apply (bool_decide_unpack _). by vm_compute.
  - apply (proj1 (execute_by_delivery_mode true fetch_subscription
                    [SubscriptionManager.Object cache_subscription;
                     SubscriptionManager.Id "S2"]
                    (SubscriptionManager.Object cache_subscription)
                    ltac:(by left))).
    apply (bool_decide_unpack _). by vm_compute.
  - apply (proj2 (execute_by_delivery_mode true fetch_subscription
                    [SubscriptionManager.Object cache_subscription;
                     SubscriptionManager.Id "S2"]
                    (SubscriptionManager.Id "S2")
                    ltac:(right; by left))).
    apply (bool_decide_unpack _). by vm_compute.
Defined.

(** The scenario of the specification: a CACHE subscription alone. *)
Example execute_cache_subscription :
  SubscriptionManager.execute false fetch_subscription
    [SubscriptionManager.Object cache_subscription]
  = [SubscriptionManager.UserWarning
       "Subscription 'Nightly cache' with ID 'S1' could not be executed. Delivery mode 'CACHE' is not supported."].
Proof. reflexivity. Qed.

(** * Further properties *)

(** ** What the validators guarantee *)

Section ValidatorGuarantees.

Variable is_referenced_by : AttributeForm -> FormReference -> bool.

(** X1. [check_if_referenced_forms_exist] has two outcomes: it returns
    exactly when every reference resolves to a form, and otherwise raises
    [AttributeError] with the message it was given. *)
Theorem check_if_referenced_forms_exist_iff (error_msg : string)
    (forms : list AttributeForm) (refs : list FormReference) :
  (check_if_referenced_forms_exist is_referenced_by error_msg forms refs = Ok tt
   <-> forall ref, ref ∈ refs -> resolves is_referenced_by forms ref)
  /\ (check_if_referenced_forms_exist is_referenced_by error_msg forms refs
      = Raise (AttributeError error_msg)
      <-> exists ref, ref ∈ refs /\ ~ resolves is_referenced_by forms ref).
Proof.
  destruct (check_outcome is_referenced_by error_msg forms refs)
    as [[Hok Hall]|[Hraise Hsome]]; rewrite ?Hok, ?Hraise.
  - split; split; try done.
    intros (ref & Hin & Hdangling). exfalso. by apply Hdangling, Hall.
  - split; split; try done.
    intros Hall. destruct Hsome as (ref & Hin & Hdangling).
    exfalso. by apply Hdangling, Hall.
Qed.

Lemma validate_displays_Ok_inv d d' forms :
  validate_displays is_referenced_by (Some d) forms = Ok d' ->
  d' = repopulated forms d
  /\ forall ref, ref ∈ report_displays d' ++ browse_displays d' ->
                 resolves is_referenced_by forms ref.
Proof.
  intros Hok.
  assert (Hids : needs_population d -> all_identified forms).
  { intros Hneeds. destruct (decide (all_identified forms)) as [|Hno]; [done|].
    by rewrite (validate_displays_unidentified _ _ _ Hneeds Hno) in Hok. }
  revert Hok. rewrite validate_displays_present by done.
  destruct (check_outcome is_referenced_by displays_error_msg forms
              (report_displays (repopulated forms d))) as [[-> Hr]|[-> _]];
    [|done].
  destruct (check_outcome is_referenced_by displays_error_msg forms
              (browse_displays (repopulated forms d))) as [[-> Hb]|[-> _]];
    [|done].
  cbn [result_bind]. intros [= <-]. split; [done|].
  intros ref [?|?]%elem_of_app; auto.
Qed.

Lemma repopulated_idempotent forms d :
  repopulated forms (repopulated forms d) = repopulated forms d.
Proof.
  unfold repopulated; simpl.
  destruct (decide (report_displays d = [])), (decide (browse_displays d = []));
    repeat case_decide; congruence.
Qed.

Lemma repopulated_needs forms d :
  needs_population (repopulated forms d) -> forms = [].
Proof.
  unfold needs_population, repopulated; simpl.
  intros [H|H]; case_decide; try done; by destruct forms.
Qed.

Lemma validate_displays_None_inv d' forms :
  validate_displays is_referenced_by None forms = Ok d' ->
  d' = {| report_displays := map by_id forms;
          browse_displays := map by_id forms |}
  /\ all_identified forms.
Proof.
  unfold validate_displays.
  destruct (form_refs forms) as [refs|e] eqn:Hrefs; [|done].
  apply form_refs_inv in Hrefs as [-> Hids]. by intros [= <-].
Qed.

Lemma repopulated_nonempty forms d :
  forms <> [] ->
  report_displays (repopulated forms d) <> []
  /\ browse_displays (repopulated forms d) <> [].
Proof.
  intros Hforms. unfold repopulated; simpl.
  split; case_decide; try done; by destruct forms.
Qed.

(** X2. Displays that come out of [validate_displays] for given displays
    only hold references that resolve to a form, and validating them again
    gives them back unchanged. *)
Theorem validate_displays_result_stable (d d' : AttributeDisplays)
    (forms : list AttributeForm) :
  validate_displays is_referenced_by (Some d) forms = Ok d' ->
  (forall ref, ref ∈ report_displays d' ++ browse_displays d' ->
               resolves is_referenced_by forms ref)
  /\ validate_displays is_referenced_by (Some d') forms = Ok d'.
Proof.
  intros [-> Hall]%validate_displays_Ok_inv. split; [done|].
  rewrite validate_displays_accepts; rewrite ?repopulated_idempotent; try done.
  intros ->%repopulated_needs. constructor.
Qed.

(** X3. Whatever displays are passed, absent ones included, the display
    lists that [validate_displays] returns for a non-empty forms list are
    both non-empty. *)
Theorem validate_displays_never_empty (displays : option AttributeDisplays)
    (d' : AttributeDisplays) (forms : list AttributeForm) :
  forms <> [] ->
  validate_displays is_referenced_by displays forms = Ok d' ->
  report_displays d' <> [] /\ browse_displays d' <> [].
Proof.
  intros Hforms. destruct displays as [d|].
  - intros [-> _]%validate_displays_Ok_inv. by apply repopulated_nonempty.
  - intros [-> _]%validate_displays_None_inv. simpl. by destruct forms.
Qed.

Lemma validate_key_form_Ok_cases (key_form : option FormReference)
    (forms : list AttributeForm) (error_msg : option string)
    (kf : FormReference) :
  validate_key_form is_referenced_by key_form forms error_msg = Ok kf ->
  (exists f, forms = [f] /\ kf = by_name f)
  \/ (2 <= length forms /\ key_form = Some kf
      /\ resolves is_referenced_by forms kf).
Proof.
  destruct forms as [|f1 [|f2 forms]]; unfold validate_key_form; [done| |].
  - intros [-> _]%ref_by_name_inv. left. by exists f1.
  - destruct key_form as [k|]; [|done].
    destruct (any_referenced is_referenced_by (f1 :: f2 :: forms) k) eqn:Hany;
      cbn [negb]; [|done].
    intros [= <-]. right. split_and!; [simpl; lia|done|].
    by apply any_referenced_resolves.
Qed.

(** X4. A key form that comes out of [validate_key_form] is either the
    reference by name to the only form, or the key form that was passed,
    which then references one of two or more forms. *)
Theorem validate_key_form_Ok_inv (key_form : option FormReference)
    (forms : list AttributeForm) (error_msg : option string)
    (kf : FormReference) :
  validate_key_form is_referenced_by key_form forms error_msg = Ok kf ->
  (exists f, forms = [f] /\ kf = by_name f)
  \/ (2 <= length forms /\ key_form = Some kf
      /\ resolves is_referenced_by forms kf).
Proof. apply validate_key_form_Ok_cases. Qed.

(** X5. The message of a failed key-form validation: the fixed one for an
    empty forms list, whatever message the caller supplied; the one of the
    reference constructor for a single form, which then has no name; with
    two or more forms the caller's message when it is a non-empty string
    and the standard one otherwise.  In the last case the key form that was
    passed is missing or references none of the forms. *)
Theorem validate_key_form_messages (key_form : option FormReference)
    (forms : list AttributeForm) (error_msg : option string) (e : exn) :
  validate_key_form is_referenced_by key_form forms error_msg = Raise e ->
  (forms = [] /\ e = AttributeError "`forms` can not be empty.")
  \/ (exists f, forms = [f] /\ form_name f = None
                /\ e = AttributeError no_id_or_name_msg)
  \/ (2 <= length forms
      /\ (forall kf, key_form = Some kf -> ~ resolves is_referenced_by forms kf)
      /\ e = AttributeError
               match error_msg with
               | Some m => if decide (m = EmptyString)
                           then key_form_default_msg else m
               | None => key_form_default_msg
               end).
Proof.
  destruct forms as [|f1 [|f2 forms]]; unfold validate_key_form.
  - intros [= <-]. by left.
  - intros Hraise. right. left. exists f1.
    destruct (form_name f1) as [n|] eqn:Hname.
    + rewrite ref_by_name_named in Hraise by congruence. done.
    + rewrite ref_by_name_unnamed in Hraise by done.
      by injection Hraise as <-.
  - intros Hraise. right. right. split; [simpl; lia|].
    destruct key_form as [k|]; [|split; [done|by injection Hraise as <-]].
    destruct (any_referenced is_referenced_by (f1 :: f2 :: forms) k) eqn:Hany;
      cbn [negb] in Hraise; [done|].
    split; [|by injection Hraise as <-].
    intros kf [= <-] Hres%any_referenced_resolves. congruence.
Qed.

Lemma validate_sorts_Ok_cases (sorts : option AttributeSorts)
    (forms : list AttributeForm) (r : option AttributeSorts) :
  validate_sorts is_referenced_by sorts forms = Ok r ->
  (r = None
   /\ forall s, sorts = Some s -> report_sorts s = None /\ browse_sorts s = None)
  \/ (exists s,
        sorts = Some s /\ r = Some s
        /\ forall ref,
             ref ∈ sort_refs (report_sorts s) ++ sort_refs (browse_sorts s) ->
             resolves is_referenced_by forms ref).
Proof.
  destruct sorts as [s|]; [|intros [= <-]; left; by split].
  destruct (decide (report_sorts s = None /\ browse_sorts s = None))
    as [[Hr Hb]|Hset].
  - rewrite validate_sorts_unset by done. intros [= <-]. left.
    split; [done|]. by intros ? [= <-].
  - assert (Hset' : report_sorts s <> None \/ browse_sorts s <> None).
    { destruct (report_sorts s), (browse_sorts s); auto. }
    rewrite validate_sorts_present by done.
    destruct (check_outcome is_referenced_by sorts_error_msg forms
                (sort_refs (report_sorts s))) as [[-> Hrs]|[-> _]]; [|done].
    destruct (check_outcome is_referenced_by sorts_error_msg forms
                (sort_refs (browse_sorts s))) as [[-> Hbs]|[-> _]]; [|done].
    cbn [result_bind]. intros [= <-]. right. exists s. split_and!; [done..|].
    intros ref [?|?]%elem_of_app; auto.
Qed.

(** X6. Sorts that come out of [validate_sorts] are the sorts that went
    in, with every form reference resolving to a form; the only other
    result is [None], for absent sorts and for sorts whose two sub-lists
    are unset. *)
Theorem validate_sorts_Ok_inv (sorts : option AttributeSorts)
    (forms : list AttributeForm) (r : option AttributeSorts) :
  validate_sorts is_referenced_by sorts forms = Ok r ->
  (r = None
   /\ forall s, sorts = Some s -> report_sorts s = None /\ browse_sorts s = None)
  \/ (exists s,
        sorts = Some s /\ r = Some s
        /\ forall ref,
             ref ∈ sort_refs (report_sorts s) ++ sort_refs (browse_sorts s) ->
             resolves is_referenced_by forms ref).
Proof. apply validate_sorts_Ok_cases. Qed.

End ValidatorGuarantees.

Lemma validate_displays_result_stable_witness :
  validate_displays is_referenced_by_spec (Some both_lists) [formA; formB]
  = Ok both_lists.
Proof.
  apply (validate_displays_result_stable is_referenced_by_spec browse_only
           both_lists [formA; formB]).
  reflexivity.
Defined.

Lemma validate_displays_never_empty_witness :
  map by_id [formA; formB] <> [] /\ map by_id [formA; formB] <> [].
Proof.
  apply (validate_displays_never_empty is_referenced_by_spec None
           {| report_displays := map by_id [formA; formB];
              browse_displays := map by_id [formA; formB] |}
           [formA; formB]); [discriminate|reflexivity].
Defined.

Lemma validate_key_form_Ok_inv_witness :
  (exists f, [formA; formB] = [f] /\ by_id formB = by_name f)
  \/ (2 <= length [formA; formB]
      /\ Some (by_id formB) = Some (by_id formB)
      /\ resolves is_referenced_by_spec [formA; formB] (by_id formB)).
Proof.
  apply (validate_key_form_Ok_inv is_referenced_by_spec
           (Some (by_id formB)) [formA; formB] None).
  reflexivity.
Defined.

Lemma validate_key_form_messages_witness :
  ([formA; formB] = []
   /\ AttributeError "pick one" = AttributeError "`forms` can not be empty.")
  \/ (exists f, [formA; formB] = [f] /\ form_name f = None
                /\ AttributeError "pick one" = AttributeError no_id_or_name_msg)
  \/ (2 <= length [formA; formB]
      /\ (forall kf, None = Some kf ->
                     ~ resolves is_referenced_by_spec [formA; formB] kf)
      /\ AttributeError "pick one" = AttributeError "pick one").
Proof.
  apply (validate_key_form_messages is_referenced_by_spec None
           [formA; formB] (Some "pick one")).
  reflexivity.
Defined.

Lemma validate_sorts_Ok_inv_witness :
  resolves is_referenced_by_spec [formA; formB] (by_id formA).
Proof.
  destruct (validate_sorts_Ok_inv is_referenced_by_spec (sorts attrAB)
              [formA; formB] (sorts attrAB) eq_refl)
    as [[Hnone _]|(s & [= <-] & _ & Hall)]; [discriminate Hnone|].
  apply Hall. simpl. by left.
Defined.

(** ** What [remove_form] guarantees *)

Section RemoveFormGuarantees.

Variable is_referenced_by : AttributeForm -> FormReference -> bool.

(** [remove_form] with its scan in closed form and its binds spelled out. *)
Lemma remove_form_unfold (fid : string) (nkf : option FormReference) (w : World) :
  remove_form is_referenced_by fid nkf w
  = match last (filter (fun f => form_id f = Some fid) (forms (self w))) with
    | None =>
        (Raise (ValueError ("Attribute with ID " +:+ id (self w) +:+ " does not "
                            +:+ "contain attribute form with ID " +:+ fid +:+ ".")),
         w)
    | Some form_to_del =>
        let new_forms := filter (fun f => form_id f <> Some fid) (forms (self w)) in
        if decide (length new_forms = 0)
        then (Raise (ValueError "You can not delete the last attribute form"), w)
        else
          match (if is_referenced_by form_to_del (key_form (self w))
                 then validate_key_form is_referenced_by
                        (Some (default (key_form (self w)) nkf)) new_forms
                        (Some delete_key_form_msg)
                 else Ok (default (key_form (self w)) nkf)) with
          | Raise e => (Raise e, w)
          | Ok new_key_form =>
              match _remove_form_from_displays is_referenced_by form_to_del
                      new_forms (displays (self w)) with
              | Raise e => (Raise e, w)
              | Ok d =>
                  match _remove_form_from_sorts is_referenced_by form_to_del
                          new_forms (sorts (self w)) with
                  | Raise e => (Raise e, w)
                  | Ok s =>
                      _alter_properties
                        {| p_key_form := Some new_key_form;
                           p_forms := Some new_forms;
                           p_displays := Some d; p_sorts := s;
                           p_relationships := None |} w
                  end
              end
          end
    end.
Proof.
  unfold remove_form, bind, get_self, raise, lift, ret.
  rewrite scan_forms_spec.
  destruct (last _) as [form_to_del|]; [|done]. cbn zeta.
  destruct (decide _); [done|].
  destruct (is_referenced_by form_to_del (key_form (self w))); [|done].
  by destruct (validate_key_form _ _ _ _).
Qed.

(** X7. A call of [remove_form] that raises has changed nothing: the
    entity is as it was and no update was submitted. *)
Theorem remove_form_failure_changes_nothing (fid : string)
    (new_key_form : option FormReference) (w w' : World) (e : exn) :
  remove_form is_referenced_by fid new_key_form w = (Raise e, w') -> w' = w.
Proof.
  rewrite remove_form_unfold.
  destruct (last _); [|by intros [= _ <-]]. cbn zeta.
  destruct (decide _); [by intros [= _ <-]|].
  destruct (if is_referenced_by _ _ then _ else _); [|by intros [= _ <-]].
  destruct (_remove_form_from_displays _ _ _ _); [|by intros [= _ <-]].
  destruct (_remove_form_from_sorts _ _ _ _); [|by intros [= _ <-]].
  discriminate.
Qed.

Lemma last_elem_of {A} (l : list A) (x : A) : last l = Some x -> x ∈ l.
Proof.
  induction l as [|a l IH]; [done|]. rewrite last_cons.
  destruct (last l) as [y|] eqn:Hl.
  - intros [= ->]. right. by apply IH.
  - intros [= ->]. by left.
Qed.

(** X8. After a call of [remove_form] that returns, the forms are the
    former forms without those of the given id, at least one form is left,
    exactly one update was submitted, and every reference of the displays
    and of the sorts that the entity now holds resolves to a form that is
    left. *)
Theorem remove_form_success (fid : string)
    (new_key_form : option FormReference) (w w' : World) :
  remove_form is_referenced_by fid new_key_form w = (Ok tt, w') ->
  forms (self w') = filter (fun f => form_id f <> Some fid) (forms (self w))
  /\ forms (self w') <> []
  /\ (exists f, f ∈ forms (self w) /\ form_id f = Some fid)
  /\ (exists p, events w' = events w ++ [AlterProperties p]
                /\ p_forms p = Some (forms (self w')))
  /\ (exists d s,
        displays (self w') = Some d /\ sorts (self w') = Some s
        /\ forall ref,
             ref ∈ report_displays d ++ browse_displays d
                   ++ sort_refs (report_sorts s) ++ sort_refs (browse_sorts s) ->
             resolves is_referenced_by (forms (self w')) ref).
Proof.
  rewrite remove_form_unfold.
  destruct (last _) as [form_to_del|] eqn:Hlast; [|done]. cbn zeta.
  destruct (decide _) as [|Hlen]; [done|].
  destruct (if is_referenced_by _ _ then _ else _) as [k|]; [|done].
  destruct (displays (self w)) as [d0|] eqn:Hd0; [|done].
  unfold _remove_form_from_displays.
  destruct (validate_displays _ _ _) as [d|] eqn:Hd; [|done].
  apply validate_displays_Ok_inv in Hd as [_ Hdres].
  destruct (sorts (self w)) as [s0|] eqn:Hs0; [|done].
  unfold _remove_form_from_sorts.
  destruct (validate_sorts _ _ _) as [s|] eqn:Hs; [|done].
  apply validate_sorts_Ok_cases in Hs.
  unfold _alter_properties. intros [= <-]. simpl. split_and!.
  - done.
  - intros Hnil. by rewrite Hnil in Hlen.
  - apply last_elem_of, list_elem_of_filter in Hlast as [? ?]. eauto.
  - by eexists.
  - destruct Hs as [[-> Hunset]|(s1 & [= <-] & -> & Hsres)].
    + exists d, s0. rewrite Hs0. split_and!; [done..|].
      intros ref Href.
      assert (Hempty : forall l,
                 pop_sort is_referenced_by form_to_del l = None -> l = None).
      { by intros [[|]|]. }
      destruct (Hunset _ eq_refl) as [Hr%Hempty Hb%Hempty]. simpl in *.
      rewrite Hr, Hb in Href. simpl in Href. rewrite !app_nil_r in Href.
      by apply Hdres.
    + eexists d, _. split_and!; [done..|].
      intros ref Href. rewrite app_assoc in Href.
      apply elem_of_app in Href as [?|?]; auto.
Qed.

(** X9. The key form is validated only when the form to remove is the one
    the key form points to.  Otherwise a call that returns has stored the
    new key form as it was given, and kept the old one when none was. *)
Theorem remove_form_keeps_given_key_form (fid : string)
    (new_key_form : option FormReference) (w w' : World) :
  (forall f, f ∈ forms (self w) -> form_id f = Some fid ->
             is_referenced_by f (key_form (self w)) = false) ->
  remove_form is_referenced_by fid new_key_form w = (Ok tt, w') ->
  key_form (self w') = default (key_form (self w)) new_key_form.
Proof.
  intros Hnot. rewrite remove_form_unfold.
  destruct (last _) as [form_to_del|] eqn:Hlast; [|done]. cbn zeta.
  destruct (decide _) as [|Hlen]; [done|].
  apply last_elem_of, list_elem_of_filter in Hlast as [Hid Hin].
  rewrite (Hnot form_to_del Hin Hid).
  destruct (_remove_form_from_displays _ _ _ _); [|done].
  destruct (_remove_form_from_sorts _ _ _ _); [|done].
  unfold _alter_properties. by intros [= <-].
Qed.

End RemoveFormGuarantees.

Lemma remove_form_failure_changes_nothing_witness : w_no_sorts = w_no_sorts.
Proof.
  apply (remove_form_failure_changes_nothing is_referenced_by_spec "A1"
           (Some (by_id formB)) w_no_sorts w_no_sorts
           (none_has_no_attribute "report_sorts")).
  reflexivity.
Defined.

Lemma remove_form_success_witness :
  forms (self (snd (remove_form is_referenced_by_spec "B2" None w0)))
  = filter (fun f => form_id f <> Some "B2") (forms (self w0)).
Proof.
  apply (remove_form_success is_referenced_by_spec "B2" None w0
           (snd (remove_form is_referenced_by_spec "B2" None w0))).
  reflexivity.
Defined.

Lemma remove_form_keeps_given_key_form_witness :
  key_form (self (snd (remove_form is_referenced_by_spec "B2"
                         (Some (by_id formD)) w0)))
  = by_id formD.
Proof.
  apply (remove_form_keeps_given_key_form is_referenced_by_spec "B2"
           (Some (by_id formD)) w0).
  - intros f Hf Hid. simpl in Hf. each_element Hf; [discriminate|reflexivity].
  - reflexivity.
Defined.

(** ** Looking up, altering and adding forms *)

Lemma find_first_cases {A} (p : A -> bool) (l : list A) :
  match List.find p l with
  | Some x =>
      exists pre post,
        l = pre ++ x :: post /\ p x = true /\ forall y, y ∈ pre -> p y = false
  | None => forall y, y ∈ l -> p y = false
  end.
Proof.
  destruct (List.find p l) as [x|] eqn:Hfind.
  - by apply find_first_split.
  - intros y Hy. apply (find_none _ _ Hfind). by apply list_elem_of_In.
Qed.

(** X10. With a non-empty id [get_form] never raises and never looks at
    the name: it returns the first form of that id, and [None] when no
    form has the id, also when a form has the name. *)
Theorem get_form_by_id (w : World) (i : string) (name : option string) :
  i <> EmptyString ->
  exists r,
    get_form (Some i) name w = (Ok r, w)
    /\ match r with
       | Some f =>
           exists pre post,
             forms (self w) = pre ++ f :: post /\ form_id f = Some i
             /\ forall g, g ∈ pre -> form_id g <> Some i
       | None => forall g, g ∈ forms (self w) -> form_id g <> Some i
       end.
Proof.
  intros Hi. unfold get_form, bind, get_self, ret, truthy_str.
  rewrite bool_decide_false by done. simpl.
  eexists. split; [done|].
  pose proof (find_first_cases
                (fun f => bool_decide (form_id f = Some i)) (forms (self w)))
    as Hfind.
  destruct (List.find _ _) as [f|].
  - destruct Hfind as (pre & post & Hl & Hf%bool_decide_eq_true & Hpre).
    exists pre, post. split_and!; [done..|].
    intros g Hg. specialize (Hpre g Hg). by apply bool_decide_eq_false in Hpre.
  - intros g Hg. specialize (Hfind g Hg). by apply bool_decide_eq_false in Hfind.
Qed.

(** X11. Without an id (none, or the empty string) [get_form] goes by the
    name: it returns the first form of a non-empty name, [None] when no
    form has it, and raises [ValueError] when the name is missing too. *)
Theorem get_form_by_name (w : World) (id name : option string) :
  id = None \/ id = Some EmptyString ->
  (forall n, name = Some n -> n <> EmptyString ->
     exists r,
       get_form id name w = (Ok r, w)
       /\ match r with
          | Some f =>
              exists pre post,
                forms (self w) = pre ++ f :: post /\ form_name f = Some n
                /\ forall g, g ∈ pre -> form_name g <> Some n
          | None => forall g, g ∈ forms (self w) -> form_name g <> Some n
          end)
  /\ (name = None \/ name = Some EmptyString ->
      get_form id name w = (Raise (ValueError "Provide id or name."), w)).
Proof.
  intros Hid.
  assert (Hfalsy : truthy_str id = false) by (by destruct Hid as [->| ->]).
  unfold get_form, bind, get_self, ret, raise. rewrite Hfalsy. split.
  - intros n -> Hn. unfold truthy_str. rewrite bool_decide_false by done.
    simpl. eexists. split; [done|].
    pose proof (find_first_cases
                  (fun f => bool_decide (form_name f = Some n)) (forms (self w)))
      as Hfind.
    destruct (List.find _ _) as [f|].
    + destruct Hfind as (pre & post & Hl & Hf%bool_decide_eq_true & Hpre).
      exists pre, post. split_and!; [done..|].
      intros g Hg. specialize (Hpre g Hg). by apply bool_decide_eq_false in Hpre.
    + intros g Hg. specialize (Hfind g Hg).
      by apply bool_decide_eq_false in Hfind.
  - by intros [->| ->].
Qed.

Lemma with_forms_same (w : World) : with_forms w (forms (self w)) = w.
Proof. by destruct w as [[] ?]. Qed.

Section AlterFormFacts.

Variable func : AttributeForm -> result AttributeForm.

Lemma alter_loop_absent (fid : string) (todo : list AttributeForm) (found : bool) :
  (forall f, f ∈ todo -> form_id f <> Some fid) ->
  alter_loop func fid todo found = (todo, found, None).
Proof.
  induction todo as [|f todo IH]; intros Hnone; simpl; [done|].
  unfold has_id. rewrite bool_decide_false by (apply Hnone; by left).
  rewrite IH; [done|]. intros g Hg. apply Hnone. by right.
Qed.

(** X12. [__alter_form_with_id] with an id that no form has raises
    [ValueError]; the mutation was applied to no form, the entity is as it
    was and nothing was submitted. *)
Theorem alter_form_absent (w : World) (fid : string) :
  (forall f, f ∈ forms (self w) -> form_id f <> Some fid) ->
  __alter_form_with_id func fid w
  = (Raise (ValueError ("Attribute Form with ID: " +:+ fid
                        +:+ " has not been found.")), w).
Proof.
  intros Hnone. unfold __alter_form_with_id.
  rewrite alter_loop_absent by done. simpl. by rewrite with_forms_same.
Qed.

(** The forms after a mutation that went through on every form of the id. *)
Lemma alter_loop_present (fid : string) (todo : list AttributeForm) (found : bool) :
  (forall f, f ∈ todo -> form_id f = Some fid -> is_raise (func f) = false) ->
  exists forms',
    alter_loop func fid todo found
    = (forms', found || existsb (has_id fid) todo, None)
    /\ length forms' = length todo
    /\ forall i f, todo !! i = Some f ->
         (form_id f <> Some fid -> forms' !! i = Some f)
         /\ (form_id f = Some fid ->
             exists f', func f = Ok f' /\ forms' !! i = Some f').
Proof.
  revert found. induction todo as [|f todo IH]; intros found Hfunc; simpl.
  - exists []. rewrite orb_false_r. split_and!; [done..|]. by intros i f Hi.
  - assert (Hrest : forall g, g ∈ todo -> form_id g = Some fid ->
                              is_raise (func g) = false).
    { intros g Hg. apply Hfunc. by right. }
    destruct (has_id fid f) eqn:Hhas.
    + assert (Hf : form_id f = Some fid)
        by (by apply bool_decide_eq_true in Hhas).
      pose proof (Hfunc f ltac:(by left) Hf) as Hok.
      destruct (func f) as [f'|] eqn:Hff; [|done].
      destruct (IH true Hrest) as (forms' & -> & Hlen & Heach).
      exists (f' :: forms'). simpl.
      split_and!; [by destruct found|by rewrite Hlen|].
      intros [|i] g Hg; simpl in *.
      * injection Hg as <-. split; [done|]. intros _. by exists f'.
      * by apply Heach.
    + assert (Hf : form_id f <> Some fid)
        by (by apply bool_decide_eq_false in Hhas).
      destruct (IH found Hrest) as (forms' & -> & Hlen & Heach).
      exists (f :: forms'). simpl. split_and!; [done|by rewrite Hlen|].
      intros [|i] g Hg; simpl in *.
      * injection Hg as <-. split; [done|]. intros Hid. done.
      * by apply Heach.
Qed.

(** X13. When some form has the id and the mutation goes through on every
    form of that id, [__alter_form_with_id] returns and submits, in one
    update, the whole forms list: as long as before, with every form of the
    id altered and every other form untouched in its place. *)
Theorem alter_form_present (w : World) (fid : string) :
  (exists f, f ∈ forms (self w) /\ form_id f = Some fid) ->
  (forall f, f ∈ forms (self w) -> form_id f = Some fid ->
             is_raise (func f) = false) ->
  exists forms',
    __alter_form_with_id func fid w
    = (Ok tt, {| self := self (with_forms w forms');
                 events := events w ++ [AlterProperties (forms_only forms')] |})
    /\ length forms' = length (forms (self w))
    /\ forall i f, forms (self w) !! i = Some f ->
         (form_id f <> Some fid -> forms' !! i = Some f)
         /\ (form_id f = Some fid ->
             exists f', func f = Ok f' /\ forms' !! i = Some f').
Proof.
  intros (f & Hin & Hf) Hfunc.
  destruct (alter_loop_present fid (forms (self w)) false Hfunc)
    as (forms' & Hloop & Hlen & Heach).
  exists forms'. split_and!; [|done..].
  unfold __alter_form_with_id. rewrite Hloop.
  assert (Hfound : existsb (has_id fid) (forms (self w)) = true).
  { apply existsb_exists. exists f. split; [by apply list_elem_of_In|].
    by apply bool_decide_eq_true. }
  rewrite Hfound. reflexivity.
Qed.

Lemma alter_loop_raises (fid : string) (todo : list AttributeForm) (found : bool) :
  match alter_loop func fid todo found with
  | (forms', _, _) => length forms' = length todo
  end.
Proof.
  revert found. induction todo as [|f todo IH]; intros found; simpl; [done|].
  destruct (has_id fid f).
  - destruct (func f); [|done].
    specialize (IH true). destruct (alter_loop _ _ _ _) as [[? ?] ?].
    simpl. by rewrite IH.
  - specialize (IH found). destruct (alter_loop _ _ _ _) as [[? ?] ?].
    simpl. by rewrite IH.
Qed.

(** X14. A call of [__alter_form_with_id] that raises has submitted
    nothing, and the entity still has as many forms as before. *)
Theorem alter_form_failure_submits_nothing (w w' : World) (fid : string)
    (e : exn) :
  __alter_form_with_id func fid w = (Raise e, w') ->
  events w' = events w /\ length (forms (self w')) = length (forms (self w)).
Proof.
  unfold __alter_form_with_id.
  pose proof (alter_loop_raises fid (forms (self w)) false) as Hlen.
  destruct (alter_loop _ _ _ _) as [[forms' found] [e'|]].
  - by intros [= _ <-].
  - destruct found; simpl; [done|]. by intros [= _ <-].
Qed.

End AlterFormFacts.

Lemma get_form_by_id_witness :
  exists r, get_form (Some "B2") (Some "ID") w0 = (Ok r, w0).
Proof.
  destruct (get_form_by_id w0 "B2" (Some "ID")) as (r & Hrun & _);
    [discriminate|].
  by exists r.
Defined.

Lemma get_form_by_name_witness :
  get_form (Some EmptyString) None w0
  = (Raise (ValueError "Provide id or name."), w0).
Proof.
  apply (proj2 (get_form_by_name w0 (Some EmptyString) None
                  (or_intror eq_refl))).
  by left.
Defined.

Lemma alter_form_absent_witness :
  __alter_form_with_id (rename_to "KEY") "ZZ" w0
  = (Raise (ValueError "Attribute Form with ID: ZZ has not been found."), w0).
Proof.
  apply (alter_form_absent (rename_to "KEY") w0 "ZZ").
  intros f Hf. simpl in Hf. each_element Hf; discriminate.
Defined.

Lemma alter_form_present_witness :
  exists forms',
    fst (__alter_form_with_id (rename_to "KEY") "A1" w0) = Ok tt
    /\ length forms' = 2
    /\ forms' !! 1 = Some formB.
Proof.
  destruct (alter_form_present (rename_to "KEY") w0 "A1")
    as (forms' & Hrun & Hlen & Heach).
  - exists formA. split; [by left|reflexivity].
  - reflexivity.
  - exists forms'. split_and!; [by rewrite Hrun|exact Hlen|].
    apply (Heach 1 formB eq_refl). discriminate.
Defined.

Lemma alter_form_failure_submits_nothing_witness :
  events (snd (__alter_form_with_id refuse "A1" w0)) = events w0.
Proof.
  apply (alter_form_failure_submits_nothing refuse w0
           (snd (__alter_form_with_id refuse "A1" w0)) "A1"
           (ValueError "refused")).
  reflexivity.
Defined.

(** ** Adding a form *)

Section AddFormFacts.

Variable local_create : FormFields -> result AttributeForm.

(** X15. Without a form object [add_form] needs both a non-empty list of
    expressions and a lookup table: otherwise it raises [AttributeError],
    [local_create] is not called and nothing is submitted. *)
Theorem add_form_rejects (w : World) (fields : FormFields) :
  ff_expressions fields = None \/ ff_expressions fields = Some []
  \/ ff_lookup_table fields = None ->
  add_form local_create None fields w = (Raise (AttributeError add_form_msg), w).
Proof.
  unfold add_form, bind, get_self, raise.
  intros [-> | [-> | ->]]; simpl; try done.
  by rewrite andb_false_r.
Qed.

(** A failure of [local_create] is the failure of [add_form], and
    nothing is submitted; when [local_create] returns a form, that form is
    appended to the forms and the whole list is submitted in one update. *)
Lemma add_form_from_fields (w : World) (fields : FormFields)
    (x : FactExpression) (xs : list FactExpression)
    (table : SchemaObjectReference) :
  ff_expressions fields = Some (x :: xs) ->
  ff_lookup_table fields = Some table ->
  add_form local_create None fields w
  = match local_create fields with
    | Raise e => (Raise e, w)
    | Ok new_form =>
        (Ok tt,
         {| self := self (with_forms w (forms (self w) ++ [new_form]));
            events := events w
                      ++ [AlterProperties (forms_only (forms (self w) ++ [new_form]))] |})
    end.
Proof.
  intros He Ht. unfold add_form, bind, get_self, raise, lift.
  rewrite He, Ht. simpl. by destruct (local_create fields).
Qed.

End AddFormFacts.

Lemma add_form_rejects_witness :
  add_form create_unnamed None
    {| ff_name := Some "SHORT"; ff_expressions := Some [];
       ff_lookup_table := Some attr_city |} w0
  = (Raise (AttributeError add_form_msg), w0).
Proof.
  apply (add_form_rejects create_unnamed w0). right. by left.
Defined.

(** X16. Adding a form object under an id that no form has, and then
    removing the form of that id, gives back the forms there were, provided
    the removal returns. *)
Theorem add_form_remove_form (is_referenced_by : AttributeForm -> FormReference -> bool)
    (local_create : FormFields -> result AttributeForm)
    (w w1 w2 : World) (f : AttributeForm) (fid : string) (fields : FormFields)
    (new_key_form : option FormReference) :
  form_id f = Some fid ->
  (forall g, g ∈ forms (self w) -> form_id g <> Some fid) ->
  add_form local_create (Some f) fields w = (Ok tt, w1) ->
  remove_form is_referenced_by fid new_key_form w1 = (Ok tt, w2) ->
  forms (self w1) = forms (self w) ++ [f]
  /\ forms (self w2) = forms (self w).
Proof.
  intros Hf Hfresh Hadd Hremove.
  assert (H1 : forms (self w1) = forms (self w) ++ [f]).
  { revert Hadd. unfold add_form, bind, get_self, _alter_properties.
    by intros [= <-]. }
  split; [done|].
  rewrite remove_form_unfold in Hremove.
  destruct (last _) as [form_to_del|]; [|done]. cbn zeta in Hremove.
  destruct (decide _); [done|].
  destruct (if is_referenced_by _ _ then _ else _); [|done].
  destruct (_remove_form_from_displays _ _ _ _); [|done].
  destruct (_remove_form_from_sorts _ _ _ _); [|done].
  revert Hremove. unfold _alter_properties. intros [= <-]. simpl.
  rewrite H1, filter_app, filter_cons_False, filter_nil, app_nil_r by auto.
  by apply filter_all.
Qed.

Lemma add_form_remove_form_witness :
  forms (self (snd (remove_form is_referenced_by_spec "D4" None
                      (snd (add_form create_unnamed (Some formD)
                              {| ff_name := None; ff_expressions := None;
                                 ff_lookup_table := None |} w0)))))
  = forms (self w0).
Proof.
  apply (add_form_remove_form is_referenced_by_spec create_unnamed w0
           (snd (add_form create_unnamed (Some formD)
                   {| ff_name := None; ff_expressions := None;
                      ff_lookup_table := None |} w0))
           (snd (remove_form is_referenced_by_spec "D4" None
                   (snd (add_form create_unnamed (Some formD)
                           {| ff_name := None; ff_expressions := None;
                              ff_lookup_table := None |} w0))))
           formD "D4"
           {| ff_name := None; ff_expressions := None; ff_lookup_table := None |}
           None); try reflexivity.
  intros g Hg. simpl in Hg. each_element Hg; discriminate.
Defined.

(** ** Adding and removing relationships *)

Lemma filter_appended (rels : list Relationship) (r : Relationship) :
  r ∉ rels -> filter (fun x => x <> r) (rels ++ [r]) = rels.
Proof.
  intros Hr. rewrite filter_app, filter_cons_False, filter_nil, app_nil_r by auto.
  apply filter_all. intros x Hx ->. done.
Qed.

Lemma find_appended (p : Relationship -> bool) (rels : list Relationship)
    (r : Relationship) :
  (forall x, x ∈ rels -> p x = false) -> p r = true ->
  List.find p (rels ++ [r]) = Some r.
Proof. intros Hrels Hr. by apply find_first_at. Qed.

(** The first [add_child] and the first [add_parent]: when no
    relationship has the child, or the joint children, or a parent of the
    given object id, the collection is resubmitted with one relationship
    more at its end, of the type given, on the table given or else on the
    attribute's lookup table, from this attribute to the child, or from
    the parent to this attribute. *)
Lemma add_relationship_first (w : World) (rtype : RelationshipType)
    (table : option SchemaObjectReference) :
  let table' := match table with
                | Some t => Some t
                | None => attribute_lookup_table (self w)
                end in
  (forall c joint_child,
      truthy joint_child = false ->
      (forall rel, rel ∈ relationships (self w) -> target rel <> Child c) ->
      add_child (Some c) joint_child rtype table w
      = (Ok tt,
         resubmitted w
           (relationships (self w)
            ++ [ {| relationship_type := rtype; relationship_table := table';
                    parent := create_from (self w); target := Child c |} ])))
  /\ (forall l,
         l <> [] ->
         (forall rel, rel ∈ relationships (self w) -> target rel <> JointChild l) ->
         add_child None (Some l) rtype table w
         = (Ok tt,
            resubmitted w
              (relationships (self w)
               ++ [ {| relationship_type := rtype; relationship_table := table';
                       parent := create_from (self w);
                       target := JointChild l |} ])))
  /\ (forall p,
         (forall rel, rel ∈ relationships (self w) ->
                      object_id (parent rel) <> object_id p) ->
         add_parent p rtype table w
         = (Ok tt,
            resubmitted w
              (relationships (self w)
               ++ [ {| relationship_type := rtype; relationship_table := table';
                       parent := p;
                       target := Child (create_from (self w)) |} ]))).
Proof.
  intros table'. split_and!.
  - intros c jc Hjc Hnone. unfold add_child, bind, get_self. rewrite Hjc. simpl.
    rewrite (find_first_none (has_child c)); [done|].
    intros x Hx. apply not_true_false. rewrite has_child_true. by apply Hnone.
  - intros l Hl Hnone. unfold add_child, bind, get_self.
    destruct l as [|a l]; [done|]. simpl.
    rewrite (find_first_none (has_joint_child (a :: l))); [done|].
    intros x Hx. apply not_true_false. rewrite has_joint_child_true.
    by apply Hnone.
  - intros p Hnone. unfold add_parent, bind, get_self.
    rewrite (find_first_none (has_parent p)); [done|].
    intros x Hx. apply not_true_false. rewrite has_parent_true. by apply Hnone.
Qed.

(** X17. Adding and then removing is a round trip ([round_trip]).  After
    [add_child] with a child, or with joint children, that no relationship
    had, the entity holds the collection with the new relationship at its
    end and this collection was submitted; [remove_child] with the same
    argument then submits the collection as it was before the two calls,
    which the entity holds afterwards, so that the log has grown by these
    two updates.  The same holds for [add_parent] followed by
    [remove_parent], for a parent whose object id no relationship had and
    which is not the attribute's own id. *)
Theorem add_then_remove (w : World) (rtype : RelationshipType)
    (table : option SchemaObjectReference) :
  let table' := match table with
                | Some t => Some t
                | None => attribute_lookup_table (self w)
                end in
  (forall c,
      (forall rel, rel ∈ relationships (self w) -> target rel <> Child c) ->
      round_trip w
        {| relationship_type := rtype; relationship_table := table';
           parent := create_from (self w); target := Child c |}
        (add_child (Some c) None rtype table)
        (remove_child (Some c) None))
  /\ (forall l,
         l <> [] ->
         (forall rel, rel ∈ relationships (self w) -> target rel <> JointChild l) ->
         round_trip w
           {| relationship_type := rtype; relationship_table := table';
              parent := create_from (self w); target := JointChild l |}
           (add_child None (Some l) rtype table)
           (remove_child None (Some l)))
  /\ (forall p,
         object_id p <> id (self w) ->
         (forall rel, rel ∈ relationships (self w) ->
                      object_id (parent rel) <> object_id p) ->
         round_trip w
           {| relationship_type := rtype; relationship_table := table';
              parent := p; target := Child (create_from (self w)) |}
           (add_parent p rtype table)
           (remove_parent p)).
Proof.
  intros table'.
  destruct (add_relationship_first w rtype table) as (Hc & Hj & Hp).
  unfold round_trip. split_and!.
  - intros c Hnone. split_and!; [by apply Hc| |done|done|].
    + unfold remove_child, bind, get_self. simpl.
      rewrite (find_appended (has_child c)).
      * rewrite _update_relationships_remove. simpl.
        rewrite filter_appended; [done|]. intros Hin. by apply (Hnone _ Hin).
      * intros x Hx. apply not_true_false. rewrite has_child_true.
        by apply Hnone.
      * by apply has_child_true.
    + simpl. by rewrite <- app_assoc.
  - intros l Hl Hnone. split_and!; [by apply Hj| |done|done|].
    + unfold remove_child, bind, get_self.
      destruct l as [|a l]; [done|]. simpl.
      rewrite (find_appended (has_joint_child (a :: l))).
      * rewrite _update_relationships_remove. simpl.
        rewrite filter_appended; [done|]. intros Hin. by apply (Hnone _ Hin).
      * intros x Hx. apply not_true_false. rewrite has_joint_child_true.
        by apply Hnone.
      * by apply has_joint_child_true.
    + simpl. by rewrite <- app_assoc.
  - intros p Hown Hnone. split_and!; [by apply Hp| |done|done|].
    + unfold remove_parent, bind, get_self. simpl.
      rewrite (find_appended (is_foreign_parent _ p)).
      * rewrite _update_relationships_remove. simpl.
        rewrite filter_appended; [done|]. intros Hin. by apply (Hnone _ Hin).
      * intros x Hx. unfold is_foreign_parent.
        rewrite (not_true_false (has_parent p x)); [done|].
        rewrite has_parent_true. by apply Hnone.
      * unfold is_foreign_parent. rewrite bool_decide_false by done.
        rewrite andb_true_r. by apply has_parent_true.
    + simpl. by rewrite <- app_assoc.
Qed.

(** X18. A relationship whose parent is the attribute itself can be added
    by [add_parent] but not removed by [remove_parent]: the removal warns
    and leaves the collection, the added relationship included, as it is. *)
Theorem add_parent_self_stays (w : World) (p : SchemaObjectReference)
    (rtype : RelationshipType) (table : option SchemaObjectReference) :
  object_id p = id (self w) ->
  (forall rel, rel ∈ relationships (self w) ->
               object_id (parent rel) <> object_id p) ->
  exists w1 rel msg,
    add_parent p rtype table w = (Ok tt, w1)
    /\ relationships (self w1) = relationships (self w) ++ [rel]
    /\ parent rel = p
    /\ remove_parent p w1 = (Ok tt, warned w1 msg).
Proof.
  intros Hown Hnone.
  eexists _, _, _. split_and!.
  - unfold add_parent, bind, get_self.
    rewrite (find_first_none (has_parent p)).
    + rewrite _update_relationships_add. reflexivity.
    + intros x Hx. apply not_true_false. rewrite has_parent_true.
      by apply Hnone.
  - reflexivity.
  - reflexivity.
  - unfold remove_parent, bind, get_self. simpl.
    rewrite (find_first_none (is_foreign_parent _ p)); [done|].
    intros x Hx. unfold is_foreign_parent. simpl.
    rewrite (bool_decide_true _ Hown). apply andb_false_r.
Qed.

Lemma add_then_remove_witness :
  round_trip w0
    {| relationship_type := ONE_TO_MANY;
       relationship_table := attribute_lookup_table attrAB;
       parent := create_from attrAB; target := Child attr_city |}
    (add_child (Some attr_city) None ONE_TO_MANY None)
    (remove_child (Some attr_city) None).
Proof.
  apply (proj1 (add_then_remove w0 ONE_TO_MANY None) attr_city).
  intros rel Hrel. by apply elem_of_nil in Hrel.
Defined.

Lemma add_parent_self_stays_witness :
  exists w1 rel msg,
    add_parent (create_from attrAB) ONE_TO_MANY None w0 = (Ok tt, w1)
    /\ relationships (self w1) = relationships (self w0) ++ [rel]
    /\ parent rel = create_from attrAB
    /\ remove_parent (create_from attrAB) w1 = (Ok tt, warned w1 msg).
Proof.
  apply (add_parent_self_stays w0 (create_from attrAB) ONE_TO_MANY None).
  - reflexivity.
  - intros rel Hrel. by apply elem_of_nil in Hrel.
Defined.

(** ** What the batch calls do with the answers of the server *)

Lemma attributes_data_dict_fold (datas : list AttributeData)
    (m : gmap string AttributeData) (n : string) :
  fold_left (fun m d => <[d_name d := d]> m) datas m !! n
  = match last (filter (fun d => d_name d = n) datas) with
    | Some d => Some d
    | None => m !! n
    end.
Proof.
  revert m. induction datas as [|d datas IH]; intros m; simpl; [done|].
  rewrite IH. destruct (decide (d_name d = n)) as [Hd|Hd].
  - rewrite filter_cons_True, last_cons by done.
    destruct (last _); [done|]. rewrite <- Hd. by rewrite lookup_insert_eq.
  - rewrite filter_cons_False by done.
    destruct (last _); [done|]. by rewrite lookup_insert_ne.
Qed.

(** The dictionary keeps, for every name, the last record of that name. *)
Lemma attributes_data_dict_lookup (datas : list AttributeData) (n : string) :
  attributes_data_dict datas !! n = last (filter (fun d => d_name d = n) datas).
Proof.
  unfold attributes_data_dict. rewrite attributes_data_dict_fold.
  by destruct (last _).
Qed.

Lemma alter_hidden_Ok (dict : gmap string AttributeData)
    (updated : list Response) (calls : list NetCall) :
  alter_hidden dict updated = (Ok tt, calls) ->
  forall c,
    c ∈ calls
    <-> exists resp d,
          c = AlterHidden (r_id resp) true /\ resp ∈ updated
          /\ dict !! r_name resp = Some d /\ d_hidden d = Some true.
Proof.
  revert calls. induction updated as [|a updated IH]; intros calls; simpl.
  - intros [= <-] c. split; [by intros ?%elem_of_nil|].
    by intros (? & ? & _ & ?%elem_of_nil & _).
  - destruct (dict !! r_name a) as [d|] eqn:Hd; [|done].
    destruct (alter_hidden dict updated) as [r calls'].
    intros [= -> <-] c. rewrite elem_of_app, (IH calls' eq_refl). split.
    + intros [Hc|(resp & d' & -> & Hin & Hd' & Hh)].
      * destruct (d_hidden d) as [[|]|] eqn:Hh;
          try by apply elem_of_nil in Hc.
        apply list_elem_of_singleton in Hc as ->.
        exists a, d. split_and!; [done|by left|done..].
      * exists resp, d'. split_and!; [done|by right|done..].
    + intros (resp & d' & -> & [->|Hin]%elem_of_cons & Hd' & Hh).
      * left. rewrite Hd in Hd'. injection Hd' as <-. rewrite Hh. by left.
      * right. by exists resp, d'.
Qed.

Lemma alter_hidden_Raise (dict : gmap string AttributeData)
    (updated : list Response) (calls : list NetCall) (e : exn) :
  alter_hidden dict updated = (Raise e, calls) ->
  exists resp,
    resp ∈ updated /\ dict !! r_name resp = None /\ e = KeyError (r_name resp).
Proof.
  revert calls. induction updated as [|a updated IH]; intros calls; simpl;
    [done|].
  destruct (dict !! r_name a) as [d|] eqn:Hd.
  - destruct (alter_hidden dict updated) as [r calls'].
    intros [= -> <-]. destruct (IH calls' eq_refl) as (resp & Hin & ? & ?).
    exists resp. split_and!; [by right|done..].
  - intros [= <- <-]. exists a. split_and!; [by left|done..].
Qed.

Lemma fst_zip_take {A B} (l : list A) (k : list B) :
  map fst (zip l k) = take (length k) l.
Proof.
  revert k. induction l as [|x l IH]; intros [|y k]; simpl; try done.
  by rewrite IH.
Qed.

Lemma last_None_filter {A} (P : A -> Prop) `{!forall x, Decision (P x)}
    (l : list A) :
  last (filter P l) = None -> forall x, x ∈ l -> ~ P x.
Proof.
  intros Hlast x Hx HP.
  assert (Hin : x ∈ filter P l) by (by apply list_elem_of_filter).
  destruct (filter P l) as [|y l'] eqn:Hl; [by apply elem_of_nil in Hin|].
  rewrite last_cons in Hlast. by destruct (last l').
Qed.

Section BatchAnswers.

Variable is_referenced_by : AttributeForm -> FormReference -> bool.
Variable is_sub_type : string -> bool.
Variable update_attributes :
  list UpdateAttributeDto -> option string -> list Response.

Lemma validate_key_form_raises kf forms msg (e : exn) :
  validate_key_form is_referenced_by kf forms msg = Raise e ->
  exists m, e = AttributeError m.
Proof.
  destruct forms as [|f1 [|f2 forms]]; unfold validate_key_form;
    [intros [= <-]; by eexists| |].
  - unfold ref_by_name, new_FormReference.
    destruct (form_name f1); [done|]. intros [= <-]. by eexists.
  - destruct kf as [k|]; [|intros [= <-]; by eexists].
    destruct (negb _); [intros [= <-]; by eexists|done].
Qed.

Lemma check_raises msg forms refs (e : exn) :
  check_if_referenced_forms_exist is_referenced_by msg forms refs = Raise e ->
  e = AttributeError msg.
Proof.
  destruct (check_outcome is_referenced_by msg forms refs) as [[-> _]|[-> _]];
    [done|by intros [= <-]].
Qed.

Lemma validate_displays_raises displays forms (e : exn) :
  validate_displays is_referenced_by displays forms = Raise e ->
  exists m, e = AttributeError m.
Proof.
  destruct (decide (all_identified forms)) as [Hids|Hids].
  2: { destruct displays as [d|].
       - destruct (decide (needs_population d)) as [Hneeds|Hneeds].
         + rewrite validate_displays_unidentified by done.
           intros [= <-]. by eexists.
         + rewrite validate_displays_present by done.
           destruct (check_if_referenced_forms_exist _ _ _ (report_displays _))
             eqn:H1; [|intros [= <-]; eexists; by eapply check_raises].
           cbn [result_bind].
           destruct (check_if_referenced_forms_exist _ _ _ (browse_displays _))
             eqn:H2; [done|intros [= <-]; eexists; by eapply check_raises].
       - unfold validate_displays. rewrite form_refs_unidentified by done.
         intros [= <-]. by eexists. }
  destruct displays as [d|];
    [|unfold validate_displays; by rewrite form_refs_identified].
  rewrite validate_displays_present by done.
  destruct (check_if_referenced_forms_exist _ _ _ (report_displays _)) eqn:H1;
    [|intros [= <-]; eexists; by eapply check_raises].
  cbn [result_bind].
  destruct (check_if_referenced_forms_exist _ _ _ (browse_displays _)) eqn:H2;
    [done|intros [= <-]; eexists; by eapply check_raises].
Qed.

Lemma validate_sorts_raises sorts forms (e : exn) :
  validate_sorts is_referenced_by sorts forms = Raise e ->
  exists m, e = AttributeError m.
Proof.
  destruct sorts as [s|]; [|done].
  destruct (decide (report_sorts s = None /\ browse_sorts s = None))
    as [[Hr Hb]|Hset]; [by rewrite validate_sorts_unset|].
  rewrite validate_sorts_present
    by (destruct (report_sorts s), (browse_sorts s); auto).
  destruct (check_if_referenced_forms_exist _ _ _ (sort_refs (report_sorts s)))
    eqn:H1; [|intros [= <-]; eexists; by eapply check_raises].
  cbn [result_bind].
  destruct (check_if_referenced_forms_exist _ _ _ (sort_refs (browse_sorts s)))
    eqn:H2; [done|intros [= <-]; eexists; by eapply check_raises].
Qed.

Lemma _get_create_body_raises name sub_type folder forms kf displays
    description embedded table sorts (e : exn) :
  _get_create_body is_referenced_by is_sub_type name sub_type folder forms kf displays
    description embedded table sorts = Raise e ->
  (exists m, e = AttributeError m)
  \/ e = ValueError (incorrect_enum_msg sub_type).
Proof.
  unfold _get_create_body.
  destruct (validate_key_form _ _ _ _) eqn:Hk;
    [|intros [= <-]; left; by eapply validate_key_form_raises].
  cbn [result_bind].
  destruct (validate_displays _ _ _) eqn:Hd;
    [|intros [= <-]; left; by eapply validate_displays_raises].
  cbn [result_bind].
  destruct (validate_sorts _ _ _) eqn:Hs;
    [|intros [= <-]; left; by eapply validate_sorts_raises].
  cbn [result_bind]. unfold get_enum_val.
  destruct (is_sub_type sub_type); [done|]. intros [= <-]. by right.
Qed.

Lemma comprehension_raises {A B} (f : A -> result B) (l : list A) (e : exn)
    (P : exn -> Prop) :
  (forall x e, f x = Raise e -> P e) ->
  comprehension f l = Raise e -> P e.
Proof.
  intros Hf. induction l as [|x l IH]; simpl; [done|].
  destruct (f x) eqn:Hx; [|intros [= <-]; by eapply Hf].
  cbn [result_bind]. destruct (comprehension f l); [done|].
  intros [= <-]. by apply IH.
Qed.

Lemma comprehension_length {A B} (f : A -> result B) (l : list A) (ys : list B) :
  comprehension f l = Ok ys -> length ys = length l.
Proof.
  revert ys. induction l as [|x l IH]; intros ys; simpl; [by intros [= <-]|].
  destruct (f x); [|done]. cbn [result_bind].
  destruct (comprehension f l) as [ys'|]; [|done].
  intros [= <-]. simpl. by rewrite (IH ys').
Qed.

(** [update_many] is one of three things: the length error, the first
    validation error, or the batch call followed by the closing loop. *)
Lemma update_many_inv (attributes_list : list Attribute)
    (attributes_data : list AttributeData) (changeset_id : option string)
    (r : result (list Response)) (calls : list NetCall) :
  update_many is_referenced_by is_sub_type update_attributes attributes_list
    attributes_data changeset_id = (r, calls) ->
  (calls = [] /\ exists e, r = Raise e /\ forall k, e <> KeyError k)
  \/ (exists dtos r' hidden,
        length dtos = length attributes_data
        /\ calls = UpdateAttributes dtos changeset_id :: hidden
        /\ alter_hidden (attributes_data_dict attributes_data)
             (take (length attributes_data)
                   (update_attributes dtos changeset_id))
           = (r', hidden)
        /\ r = (check! r' in
                Ok (take (length attributes_data)
                         (update_attributes dtos changeset_id)))).
Proof.
  unfold update_many. case_bool_decide as Hlen; simpl.
  - destruct (comprehension _ _) as [dtos|e] eqn:Hdtos.
    + rewrite fst_zip_take.
      destruct (alter_hidden _ _) as [r' hidden] eqn:Hloop.
      intros [= <- <-]. right. exists dtos, r', hidden.
      split_and!; [|done..].
      apply comprehension_length in Hdtos. rewrite Hdtos, length_zip. lia.
    + intros [= <- <-]. left. split; [done|]. exists e. split; [done|].
      refine (comprehension_raises _ _ _ (fun e => forall k, e <> KeyError k)
                _ Hdtos).
      intros [a d] e' Hbuild k ->.
      unfold _attribute_data_to_update_attribute_dto in Hbuild.
      destruct (_get_create_body _ _ _ _ _ _ _ _ _ _ _) eqn:Hbody; [done|].
      simpl in Hbuild. injection Hbuild as ->.
      by apply _get_create_body_raises in Hbody as [[m Hm]|Hm].
  - intros [= <- <-]. left. split; [done|]. by eexists.
Qed.

(** X19. When [update_many] raises [KeyError], the batch update has
    already been submitted: the key is the name of an attribute in the
    server's answer that is the name of no record passed. *)
Theorem update_many_key_error (attributes_list : list Attribute)
    (attributes_data : list AttributeData) (changeset_id : option string)
    (k : string) (calls : list NetCall) :
  update_many is_referenced_by is_sub_type update_attributes attributes_list
    attributes_data changeset_id = (Raise (KeyError k), calls) ->
  exists dtos hidden,
    calls = UpdateAttributes dtos changeset_id :: hidden
    /\ length dtos = length attributes_data
    /\ (forall d, d ∈ attributes_data -> d_name d <> k)
    /\ exists resp, resp ∈ update_attributes dtos changeset_id /\ r_name resp = k.
Proof.
  intros [(_ & e & [= <-] & He)|(dtos & r' & hidden & Hlen & -> & Hloop & Hr)]
    %update_many_inv; [by destruct (He k)|].
  destruct r' as [[]|e]; [done|]. injection Hr as <-.
  apply alter_hidden_Raise in Hloop as (resp & Hin & Hnone & [= ->]).
  exists dtos, hidden. split_and!; [done..| |].
  - rewrite attributes_data_dict_lookup in Hnone.
    by apply (last_None_filter (fun d => d_name d = r_name resp)).
  - exists resp. split; [|done]. by apply (subseteq_take _ _ _ Hin).
Qed.

(** X20. When [update_many] returns, it returns the server's answers cut
    to the number of records, after one batch update with one payload per
    record; the calls that follow set [hidden] for exactly the returned
    attributes whose name is the name of a record asking for it, the last
    record of that name deciding. *)
Theorem update_many_returns (attributes_list : list Attribute)
    (attributes_data : list AttributeData) (changeset_id : option string)
    (updated : list Response) (calls : list NetCall) :
  update_many is_referenced_by is_sub_type update_attributes attributes_list
    attributes_data changeset_id = (Ok updated, calls) ->
  exists dtos hidden,
    calls = UpdateAttributes dtos changeset_id :: hidden
    /\ length dtos = length attributes_data
    /\ updated = take (length attributes_data)
                      (update_attributes dtos changeset_id)
    /\ forall c,
         c ∈ hidden
         <-> exists resp d,
               c = AlterHidden (r_id resp) true /\ resp ∈ updated
               /\ last (filter (fun d => d_name d = r_name resp) attributes_data)
                  = Some d
               /\ d_hidden d = Some true.
Proof.
  intros [(_ & e & [=] & _)|(dtos & r' & hidden & Hlen & -> & Hloop & Hr)]
    %update_many_inv.
  destruct r' as [[]|e]; [|done]. injection Hr as ->.
  exists dtos, hidden. split_and!; [done..|].
  intros c. rewrite (alter_hidden_Ok _ _ _ Hloop c).
  by setoid_rewrite attributes_data_dict_lookup.
Qed.

End BatchAnswers.

Lemma update_many_key_error_witness : d_name data_customer <> "Other".
Proof.
  destruct (update_many_key_error is_referenced_by_spec is_sub_type_spec renaming_server
              [attrAB] [data_customer] None "Other"
              (snd (update_many is_referenced_by_spec is_sub_type_spec renaming_server [attrAB]
                      [data_customer] None)) eq_refl)
    as (dtos & hidden & _ & _ & Hnames & _).
  apply Hnames. by left.
Defined.

Lemma update_many_returns_witness :
  exists dtos hidden,
    snd (update_many is_referenced_by_spec is_sub_type_spec echo_server [attrAB] [data_hidden] None)
    = UpdateAttributes dtos None :: hidden
    /\ (AlterHidden "ATTR" true ∈ hidden).
Proof.
  destruct (update_many_returns is_referenced_by_spec is_sub_type_spec echo_server
              [attrAB] [data_hidden] None
              [ {| r_id := "ATTR"; r_name := "Customer" |} ]
              (snd (update_many is_referenced_by_spec is_sub_type_spec echo_server [attrAB]
                      [data_hidden] None)) eq_refl)
    as (dtos & hidden & Hcalls & _ & _ & Hhidden).
  exists dtos, hidden. split; [done|].
  apply Hhidden. exists {| r_id := "ATTR"; r_name := "Customer" |}, data_hidden.
  split_and!; try reflexivity. by left.
Defined.

(** ** Batch creation *)

Lemma enumerate_created_spec (attributes_data : list AttributeData) (i : nat)
    (responses : list Response) :
  enumerate_created attributes_data i responses
  = if decide (responses = [] \/ i + length responses <= length attributes_data)
    then Some responses else None.
Proof.
  revert i. induction responses as [|r responses IH]; intros i;
    cbn [enumerate_created].
  - destruct (decide _) as [H|H]; [done|]. exfalso. apply H. by left.
  - destruct (attributes_data !! i) as [d|] eqn:Hi.
    + apply lookup_lt_Some in Hi. rewrite IH.
      destruct (decide (responses = [] \/ _)) as [H1|H1];
        destruct (decide (r :: responses = [] \/ _)) as [H2|H2];
        try done; exfalso.
      * apply H2. right. destruct H1 as [->|H1]; simpl in *; lia.
      * destruct H2 as [?|H2]; [done|]. apply H1. right. simpl in *. lia.
    + apply lookup_ge_None in Hi.
      destruct (decide _) as [[?|H]|H]; [done|simpl in H; lia|done].
Qed.

Section BatchCreateFacts.

Variable is_referenced_by : AttributeForm -> FormReference -> bool.
Variable is_sub_type : string -> bool.
Variable create_attributes :
  list CreateAttributeDto -> option string -> list Response.




(** X22. [create_many] raises [IndexError] exactly when all records pass
    the validation and the server answers with more attributes than there
    are records; the batch creation is then the only call made. *)
Theorem create_many_index_error (attributes_data : list AttributeData)
    (changeset_id : option string) (calls : list CreateCall) :
  create_many is_referenced_by is_sub_type create_attributes attributes_data changeset_id
  = (inl IndexError, calls)
  <-> exists dtos,
        comprehension (_attribute_data_to_create_attribute_dto is_referenced_by is_sub_type)
          attributes_data = Ok dtos
        /\ calls = [CreateAttributes dtos changeset_id]
        /\ length attributes_data
           < length (create_attributes dtos changeset_id).
Proof.
  unfold create_many.
  destruct (comprehension _ _) as [dtos|e].
  - rewrite enumerate_created_spec. case_decide as Hfits.
    + destruct (alter_hidden _ _) as [[[]|e] hidden]; split; try done.
      * intros (dtos' & [= <-] & _ & Hlong). exfalso.
        destruct Hfits as [Hnil|?]; [|simpl in *; lia].
        rewrite Hnil in Hlong. simpl in Hlong. lia.
      * intros (dtos' & [= <-] & _ & Hlong). exfalso.
        destruct Hfits as [Hnil|?]; [|simpl in *; lia].
        rewrite Hnil in Hlong. simpl in Hlong. lia.
    + split.
      * intros [= <-]. exists dtos. split_and!; [done..|].
        destruct (decide (length attributes_data
                          < length (create_attributes dtos changeset_id)));
          [done|].
        exfalso. apply Hfits. right. simpl. lia.
      * by intros (dtos' & [= <-] & -> & _).
  - split; [done|]. by intros (? & [=] & _).
Qed.

End BatchCreateFacts.


(** The doubling server answers two attributes for the one record. *)
Example create_many_surplus_answer :
  exists dtos,
    create_many is_referenced_by_spec is_sub_type_spec doubling_server [data_customer] None
    = (inl IndexError, [CreateAttributes dtos None]).
Proof. by eexists. Qed.

(** ** Bulk operations on subscriptions *)

Lemma length_filter_all {A} (P : A -> Prop) `{!forall x, Decision (P x)}
    (l : list A) :
  length (filter P l) = length l <-> forall x, x ∈ l -> P x.
Proof.
  induction l as [|x l IH].
  - split; [|done]. intros _ x Hx. by apply elem_of_nil in Hx.
  - destruct (decide (P x)) as [Hx|Hx].
    + rewrite filter_cons_True by done. simpl. split.
      * intros Hlen y [->|Hy]%elem_of_cons; [done|]. apply IH; [lia|done].
      * intros Hall. f_equal. apply IH. intros y Hy. apply Hall. by right.
    + rewrite filter_cons_False by done. simpl. split.
      * intros Hlen. pose proof (length_filter P l). lia.
      * intros Hall. exfalso. apply Hx, Hall. by left.
Qed.

Section BulkFacts.

Import SubscriptionManager SubscriptionBulk.

Variable verbose : bool.
Variable fetch : string -> Subscription.
Variable remove_ok : Subscription -> bool.
Variable answer : string.

Lemma count_deleted_spec (subscriptions : list Subscription) (n : nat)
    (log : list BulkEvent) :
  fst (count_deleted remove_ok subscriptions (n, log))
  = n + length (filter (fun s => remove_ok s = true) subscriptions)
  /\ omap is_remove (snd (count_deleted remove_ok subscriptions (n, log)))
     = omap is_remove log ++ subscriptions.
Proof.
  revert n log. unfold count_deleted.
  induction subscriptions as [|s l IH]; intros n log; cbn [fold_left].
  - simpl. rewrite app_nil_r. split; [lia|done].
  - assert (Hstep : count_step remove_ok (n, log) s
                    = (if remove_ok s then S n else n,
                       log ++ RemoveSubscription s
                              :: if remove_ok s then []
                                 else [DeleteWarning (could_not_delete_msg s)]))
      by reflexivity.
    rewrite Hstep. destruct (remove_ok s) eqn:Hs.
    + rewrite filter_cons_True by done.
      destruct (IH (S n) (log ++ [RemoveSubscription s])) as [-> ->].
      rewrite omap_app. simpl. rewrite <- app_assoc. split; [lia|done].
    + rewrite filter_cons_False by congruence.
      destruct (IH n (log ++ [RemoveSubscription s;
                              DeleteWarning (could_not_delete_msg s)]))
        as [-> ->].
      rewrite omap_app. simpl. rewrite <- app_assoc. split; [lia|done].
Qed.

(** X23. [delete] returns [True] exactly when at least one subscription
    was passed, the deletion was forced or confirmed with Y, and the server
    accepted the removal of every subscription. *)
Theorem delete_true_iff (subscriptions : SubscriptionsArg) (force : bool) :
  fst (delete fetch remove_ok answer subscriptions force) = true
  <-> _normalize_subscriptions fetch subscriptions <> []
      /\ (force = true \/ answer = "Y")
      /\ forall s, s ∈ _normalize_subscriptions fetch subscriptions ->
                   remove_ok s = true.
Proof.
  unfold delete. case_bool_decide as Hnil.
  - simpl. split; [done|]. by intros (? & _).
  - destruct force; simpl.
    + pose proof (count_deleted_spec
                    (_normalize_subscriptions fetch subscriptions) 0 [])
        as [Hn _].
      destruct (count_deleted _ _ _) as [succeeded log]. simpl in *.
      rewrite bool_decide_eq_true, Hn, length_filter_all.
      split; [intros Hall; split_and!; auto|by intros (_ & _ & ?)].
    + case_bool_decide as Hans; simpl.
      * pose proof (count_deleted_spec
                      (_normalize_subscriptions fetch subscriptions) 0 [Prompt])
          as [Hn _].
        destruct (count_deleted _ _ _) as [succeeded log]. simpl in *.
        rewrite bool_decide_eq_true, Hn, length_filter_all.
      split; [intros Hall; split_and!; auto|by intros (_ & _ & ?)].
      * split; [done|]. intros (_ & [?|?] & _); done.
Qed.

(** X24. Once the deletion is forced or confirmed with Y, [delete] asks
    the server to remove every subscription passed, each once and in the
    order given, whether or not an earlier removal was refused; without the
    confirmation it asks for no removal at all. *)
Theorem delete_requests (subscriptions : SubscriptionsArg) (force : bool) :
  omap is_remove (snd (delete fetch remove_ok answer subscriptions force))
  = if force || bool_decide (answer = "Y")
    then _normalize_subscriptions fetch subscriptions
    else [].
Proof.
  unfold delete. case_bool_decide as Hnil.
  - rewrite Hnil. by destruct (_ || _).
  - destruct force; simpl.
    + pose proof (count_deleted_spec
                    (_normalize_subscriptions fetch subscriptions) 0 [])
        as [_ Hlog].
      by destruct (count_deleted _ _ _) as [succeeded log].
    + case_bool_decide as Hans; simpl; [|done].
      pose proof (count_deleted_spec
                    (_normalize_subscriptions fetch subscriptions) 0 [Prompt])
        as [_ Hlog].
      by destruct (count_deleted _ _ _) as [succeeded log].
Qed.

Lemma execute_loop_app (l : list SubscriptionArg) (acc : list SubEvent) :
  fold_left (fun log arg => log ++ execute_one fetch arg) l acc
  = acc ++ map (fun arg => if supported (resolve fetch arg)
                           then Execute (resolve fetch arg)
                           else UserWarning (not_supported_msg (resolve fetch arg)))
               l.
Proof.
  revert acc. induction l as [|a l IH]; intros acc; simpl.
  - by rewrite app_nil_r.
  - rewrite IH, <- app_assoc. f_equal. unfold execute_one.
    by destruct (supported _).
Qed.

(** X25. Unless the list is empty and [config.verbose] is on, [execute]
    produces one event per element of the list, in the order of the list:
    the execution of the subscription when its mode is supported, the
    warning about it otherwise. *)
Theorem execute_in_order (subscriptions : list SubscriptionArg) :
  subscriptions <> [] \/ verbose = false ->
  length (execute verbose fetch subscriptions) = length subscriptions
  /\ forall i arg,
       subscriptions !! i = Some arg ->
       execute verbose fetch subscriptions !! i
       = Some (if bool_decide (delivery_mode (resolve fetch arg)
                               ∈ ["EMAIL"; "FILE"; "HISTORY_LIST"; "FTP"])
               then Execute (resolve fetch arg)
               else UserWarning (not_supported_msg (resolve fetch arg))).
Proof.
  intros Hrun. unfold execute.
  assert (Hguard : bool_decide (subscriptions = []) && verbose = false).
  { destruct Hrun as [?| ->]; [by rewrite bool_decide_false|].
    apply andb_false_r. }
  rewrite Hguard, execute_loop_app. simpl. split.
  - by rewrite length_map.
  - intros i arg Hi. by rewrite list_lookup_fmap, Hi.
Qed.

(** X26. [available_recipients] returns recipients only when
    [config.verbose] is on: a list that it returns is the list of an ok
    answer of the server to the one request made, and that request is
    about the content id and type passed when both are non-empty, and
    about the content object otherwise, also when one of the two was
    passed. *)
Theorem available_recipients_returns
    (server : RecipientsRequest -> bool * list string)
    (content_id content_type : option string) (content : option Content)
    (delivery_type : string) (recipients : list string)
    (requests : list RecipientsRequest) :
  available_recipients verbose server content_id content_type content
    delivery_type = (Ok (Some recipients), requests) ->
  verbose = true
  /\ exists rq,
       requests = [rq] /\ server rq = (true, recipients)
       /\ rq_delivery_type rq = delivery_type
       /\ ((truthy_str content_id = true /\ truthy_str content_type = true
            /\ rq_id rq = content_id /\ rq_type rq = content_type)
           \/ (exists c,
                 (truthy_str content_id = false \/ truthy_str content_type = false)
                 /\ content = Some c
                 /\ rq_id rq = SubscriptionBulk.content_id c
                 /\ rq_type rq = SubscriptionBulk.content_type c)).
Proof.
  unfold available_recipients, request_available_recipients.
  destruct (truthy_str content_id) eqn:Hi, (truthy_str content_type) eqn:Ht;
    simpl.
  - destruct (server _) as [ok l] eqn:Hs.
    destruct ok, verbose; simpl; try done.
    intros [= <- <-]. split; [done|]. eexists. split_and!; [done..|].
    left. by split_and!.
  - destruct content as [c|]; [|done].
    destruct (server _) as [ok l] eqn:Hs.
    destruct ok, verbose; simpl; try done.
    intros [= <- <-]. split; [done|]. eexists. split_and!; [done..|].
    right. exists c. split_and!; auto.
  - destruct content as [c|]; [|done].
    destruct (server _) as [ok l] eqn:Hs.
    destruct ok, verbose; simpl; try done.
    intros [= <- <-]. split; [done|]. eexists. split_and!; [done..|].
    right. exists c. split_and!; auto.
  - destruct content as [c|]; [|done].
    destruct (server _) as [ok l] eqn:Hs.
    destruct ok, verbose; simpl; try done.
    intros [= <- <-]. split; [done|]. eexists. split_and!; [done..|].
    right. exists c. split_and!; auto.
Qed.

(** X27. [available_recipients] raises in two cases only.  When there is
    no content object and the content id or the content type is missing or
    empty, it raises the [ValueError] of the argument check and the server
    is not asked.  Otherwise the one request is sent, about the content id
    and type passed when both are non-empty and about the content object if
    not, and the call raises [IServerError] exactly when the answer of the
    server to that request is not ok. *)
Theorem available_recipients_raises
    (server : RecipientsRequest -> bool * list string)
    (content_id content_type : option string) (content : option Content)
    (delivery_type : string) (e : exn) (requests : list RecipientsRequest) :
  available_recipients verbose server content_id content_type content
    delivery_type = (Raise e, requests)
  <-> ((truthy_str content_id = false \/ truthy_str content_type = false)
       /\ content = None /\ e = ValueError recipients_msg /\ requests = [])
      \/ (((truthy_str content_id = true /\ truthy_str content_type = true)
           \/ content <> None)
          /\ e = IServerError
          /\ requests = [request_for content_id content_type content
                           delivery_type]
          /\ fst (server (request_for content_id content_type content
                            delivery_type)) = false).
Proof.
  unfold available_recipients, request_available_recipients, request_for.
  destruct (truthy_str content_id) eqn:Hi, (truthy_str content_type) eqn:Ht;
    simpl; try destruct content as [c|]; simpl;
    try (destruct (server _) as [ok l] eqn:Hs; destruct ok); simpl.
  all: split.
  all: try (intros [= <- <-]).
  all: try (intros [(Hargs & Hcontent & -> & ->)|(Hargs & -> & -> & Hnot)]).
  all: try done.
  all: try (by destruct Hargs).
  all: try (left; by auto).
  all: try (right; split_and!; by auto).
  all: try (by destruct Hargs as [[? ?]|?]).
Qed.

End BulkFacts.

Lemma execute_in_order_witness :
  length (SubscriptionManager.execute true fetch_subscription
            [SubscriptionManager.Object cache_subscription;
             SubscriptionManager.Id "S2"]) = 2
  /\ SubscriptionManager.execute true fetch_subscription
       [SubscriptionManager.Object cache_subscription;
        SubscriptionManager.Id "S2"] !! 1
     = Some (SubscriptionManager.Execute email_subscription).
Proof.
  destruct (execute_in_order true fetch_subscription
              [SubscriptionManager.Object cache_subscription;
               SubscriptionManager.Id "S2"]) as [Hlen Heach].
  - left. discriminate.
  - split; [exact Hlen|].
    exact (Heach 1 (SubscriptionManager.Id "S2") eq_refl).
Defined.

Lemma available_recipients_returns_witness :
  exists rq,
    two_recipients rq = (true, ["U1"; "U2"])
    /\ SubscriptionBulk.rq_id rq = Some "C1".
Proof.
  destruct (available_recipients_returns true two_recipients
              (Some "C1") None
              (Some {| SubscriptionBulk.content_id := Some "C1";
                       SubscriptionBulk.content_type := Some "report" |})
              "EMAIL" ["U1"; "U2"]
              [ {| SubscriptionBulk.rq_id := Some "C1";
                   SubscriptionBulk.rq_type := Some "report";
                   SubscriptionBulk.rq_delivery_type := "EMAIL" |} ]
              eq_refl)
    as (_ & rq & [= <-] & Hserver & _).
  eexists. split; [exact Hserver|reflexivity].
Defined.

(** ** The request body *)

(** X28. A body that [_get_create_body] hands out, for a creation or an
    update, single or batch, was built from a non-empty forms list; it
    carries these forms, a key form that is the reference by name to the
    only form or else the given key form referencing one of the forms,
    displays whose two lists are non-empty, either no sorts or the given
    sorts with every form reference resolving, and the given sub type,
    which is a value of the enumeration. *)
Theorem get_create_body_guarantees
    (is_referenced_by : AttributeForm -> FormReference -> bool)
    (is_sub_type : string -> bool)
    (name sub_type : string) (destination_folder : FolderArg)
    (forms : list AttributeForm) (key_form : option FormReference)
    (displays : option AttributeDisplays) (description : option string)
    (is_embedded : bool) (attribute_lookup_table : option SchemaObjectReference)
    (sorts : option AttributeSorts) (b : Body) :
  _get_create_body is_referenced_by is_sub_type name sub_type destination_folder forms
    key_form displays description is_embedded attribute_lookup_table sorts
  = Ok b ->
  forms <> [] /\ b_forms b = Some forms /\ b_name b = name
  /\ (exists kf,
        b_key_form b = Some kf
        /\ ((exists f, forms = [f] /\ kf = by_name f)
            \/ (key_form = Some kf /\ resolves is_referenced_by forms kf)))
  /\ (exists d,
        b_displays b = Some d
        /\ report_displays d <> [] /\ browse_displays d <> [])
  /\ (b_sorts b = None
      \/ (exists s,
            sorts = Some s /\ b_sorts b = Some s
            /\ forall ref,
                 ref ∈ sort_refs (report_sorts s) ++ sort_refs (browse_sorts s) ->
                 resolves is_referenced_by forms ref))
  /\ is_sub_type sub_type = true /\ b_sub_type b = sub_type.
Proof.
  unfold _get_create_body.
  destruct (validate_key_form _ _ _ _) as [kf|] eqn:Hk; [|done].
  cbn [result_bind].
  destruct (validate_displays _ _ _) as [d|] eqn:Hd; [|done].
  cbn [result_bind].
  destruct (validate_sorts _ _ _) as [s|] eqn:Hs; [|done].
  cbn [result_bind]. unfold get_enum_val.
  destruct (is_sub_type sub_type) eqn:Ht; [|done].
  cbn [result_bind]. intros [= <-]. simpl.
  apply validate_key_form_Ok_cases in Hk.
  assert (Hforms : forms <> []).
  { destruct Hk as [(f & -> & _)|(Hlen & _)]; [done|].
    intros ->. simpl in Hlen. lia. }
  split_and!; [done|by destruct forms|done|..|done|done].
  - exists kf. split; [done|]. destruct Hk as [?|(_ & ? & ?)]; auto.
  - exists d. split; [done|]. destruct displays as [d0|].
    + apply validate_displays_Ok_inv in Hd as [-> _].
      by apply repopulated_nonempty.
    + apply validate_displays_None_inv in Hd as [-> _]. simpl.
      by destruct forms.
  - apply validate_sorts_Ok_cases in Hs as [[-> _]|(s' & -> & -> & Hres)];
      [by left|right]. by exists s'.
Qed.

Lemma get_create_body_guarantees_witness : d_forms data_customer <> [].
Proof.
  destruct (_get_create_body is_referenced_by_spec is_sub_type_spec
              (d_name data_customer) (d_sub_type data_customer)
              (d_destination_folder data_customer) (d_forms data_customer)
              (d_key_form data_customer) (d_displays data_customer)
              (d_description data_customer) (d_is_embedded data_customer)
              (d_attribute_lookup_table data_customer) (d_sorts data_customer))
    as [b|e] eqn:Hbody; [|discriminate Hbody].
  by destruct (get_create_body_guarantees _ _ _ _ _ _ _ _ _ _ _ _ _ Hbody).
Defined.
